(** * streamlit_app.py: the cryptocurrency dashboard pipeline

    A shallow embedding of [streamlit_app.py]: the script fetches price
    samples, resamples them into 15-minute candles, computes a 14-period
    RSI, asks an ARIMA estimator for 8 forecast points and derives a peak
    callout and a three-way recommendation.

    Numbers.  The script computes on pandas [float64] columns.  The
    development reads them in two ways.

    - The exact reading ([f64], [F], [Series], [rsi], [trend], ...) keeps
      the special values of that arithmetic (the not-a-number value and the
      two infinities, with the rules numpy applies to them: a division by
      zero yields an infinity or NaN and never raises, every comparison
      with NaN is false) and computes exactly, on rationals, on finite
      values, each rolling window summed afresh.  It has no rounding and no
      sign of zero.  The facts on the shape of the tables, on candles, on
      the order of the steps of a run and on exceptions are stated on it.

    - The binary64 reading ([B64]) computes on the machine's binary64
      values (Rocq's primitive floats) with the algorithms pandas and numpy
      run: the rolling mean as a running compensated sum to which the
      newest cell is added and from which the oldest is removed, the mean
      as numpy's pairwise sum divided by the count, zeros with their sign.
      The facts that depend on rounding or on the sign of a zero (the range
      of the RSI, its cells on a zero average loss, the sign of the trend,
      the recommendation) are stated on it.

    Failures.  The script has no [try]: an exception raised by any line
    ends the run.  Lines that can raise are written in the error monad
    [exn + _]. *)

From Stdlib Require Import String ZArith QArith Qminmax List Bool Lia Lqa.
From Stdlib Require Import Sorting.Sorted.
From Stdlib Require Floats Uint63.
From ExtLib Require Import Structures.Monad Structures.MonadExc.
From ExtLib Require Import Data.Monads.EitherMonad.
Import ListNotations.
Import MonadNotation.
Local Open Scope monad_scope.
Local Open Scope Q_scope.
Set Warnings "-inexact-float".

(* ===================================================================== *)
(** ** float64 values *)
(* ===================================================================== *)

(** A [float64] cell of a pandas column, in the exact reading. *)
Inductive f64 : Type :=
| NaN
| PosInf
| NegInf
| Num (q : Q).

Module F.

Definition isnan (x : f64) : bool :=
  match x with NaN => true | _ => false end.

Definition notna (x : f64) : bool := negb (isnan x).

Definition Qltb (a b : Q) : bool := negb (Qle_bool b a).

(** [x < y]: false as soon as one side is NaN. *)
Definition ltb (x y : f64) : bool :=
  match x, y with
  | NaN, _ | _, NaN => false
  | PosInf, _ => false
  | _, NegInf => false
  | NegInf, _ => true
  | Num _, PosInf => true
  | Num a, Num b => Qltb a b
  end.

(** [x > y] *)
Definition gtb (x y : f64) : bool := ltb y x.

Definition opp (x : f64) : f64 :=
  match x with
  | NaN => NaN
  | PosInf => NegInf
  | NegInf => PosInf
  | Num a => Num (- a)
  end.

Definition add (x y : f64) : f64 :=
  match x, y with
  | NaN, _ | _, NaN => NaN
  | PosInf, NegInf | NegInf, PosInf => NaN
  | PosInf, _ | _, PosInf => PosInf
  | NegInf, _ | _, NegInf => NegInf
  | Num a, Num b => Num (a + b)
  end.

Definition sub (x y : f64) : f64 := add x (opp y).

(** numpy's true division: [x / 0] is an infinity, [0 / 0] is NaN, nothing
    raises.  The zero of the exact reading has no sign, and the infinity
    takes the sign of [x]; with the signed zeros of binary64 the sign of the
    zero counts too ([B64.rs]). *)
Definition div (x y : f64) : f64 :=
  match x, y with
  | NaN, _ | _, NaN => NaN
  | (PosInf | NegInf), (PosInf | NegInf) => NaN
  | PosInf, Num b => if Qltb b 0 then NegInf else PosInf
  | NegInf, Num b => if Qltb b 0 then PosInf else NegInf
  | Num _, (PosInf | NegInf) => Num 0
  | Num a, Num b =>
      if Qeq_bool b 0 then
        if Qeq_bool a 0 then NaN
        else if Qltb a 0 then NegInf else PosInf
      else Num (a / b)
  end.

Definition of_nat (n : nat) : f64 := Num (inject_Z (Z.of_nat n)).

End F.

Declare Scope f64_scope.
Delimit Scope f64_scope with f64.
Bind Scope f64_scope with f64.
Infix "+" := F.add : f64_scope.
Infix "-" := F.sub : f64_scope.
Infix "/" := F.div : f64_scope.
Notation "- x" := (F.opp x) : f64_scope.
Infix "<?" := F.ltb (at level 70) : f64_scope.
Infix ">?" := F.gtb (at level 70) : f64_scope.

(* ===================================================================== *)
(** ** Exceptions *)
(* ===================================================================== *)

(** The Python exceptions the script's lines can raise, with their
    message. *)
Inductive exn : Type :=
| KeyError (msg : string)
| IndexError (msg : string)
| ValueError (msg : string)
| ProviderError (msg : string)
| EstimatorError (msg : string).

Definition exn_message (e : exn) : string :=
  match e with
  | KeyError m | IndexError m | ValueError m
  | ProviderError m | EstimatorError m => m
  end.

(** The error monad of a run. *)
Abbreviation M := (sum exn).

(* ===================================================================== *)
(** ** pandas Series operations used by the script *)
(* ===================================================================== *)

Module Series.

(** [s.iloc[-n:]]: the last [n] cells, all of them when there are fewer;
    [-0] is [0], so that [s.iloc[-0:]] is the whole series. *)
Definition iloc_tail {A} (n : nat) (s : list A) : list A :=
  match n with
  | O => s
  | S _ => skipn (length s - n) s
  end.

(** [s.iloc[-1]]: raises on an empty series. *)
Definition iloc_last {A} (s : list A) : M A :=
  match rev s with
  | x :: _ => ret x
  | [] => raise (IndexError "single positional indexer is out-of-bounds")
  end.

Fixpoint diff_from (prev : f64) (s : list f64) : list f64 :=
  match s with
  | [] => []
  | x :: t => (x - prev)%f64 :: diff_from x t
  end.

(** [s.diff()]: the first cell has no predecessor and is NaN. *)
Definition diff (s : list f64) : list f64 :=
  match s with
  | [] => []
  | x :: t => NaN :: diff_from x t
  end.

(** [s.where(cond, other)]: keeps a cell where [cond] holds, puts [other]
    elsewhere (also where the cell is NaN, on which [cond] is false). *)
Definition where_ (cond : f64 -> bool) (other : f64) (s : list f64)
  : list f64 :=
  map (fun x => if cond x then x else other) s.

Definition neg (s : list f64) : list f64 := map F.opp s.

Definition sum (s : list f64) : f64 :=
  fold_left F.add s (Num 0).

(** [s.mean()]: NaN cells are skipped; NaN when nothing is left. *)
Definition mean (s : list f64) : f64 :=
  let v := filter F.notna s in
  match v with
  | [] => NaN
  | _ => (sum v / F.of_nat (length v))%f64
  end.

(** The cells a window of [w] ending at position [i] covers. *)
Definition window_at (w i : nat) (s : list f64) : list f64 :=
  skipn (S i - w) (firstn (S i) s).

(** One cell of [s.rolling(window=w).mean()]: [min_periods] defaults to
    the window, so the cell is NaN until the window holds [w] cells that
    are not NaN.  In the exact reading the cell is the mean of its window;
    pandas carries one running sum along the column, which is the same
    number only without rounding ([B64.rolling_mean]). *)
Definition window_mean (w : nat) (win : list f64) : f64 :=
  if (length (filter F.notna win) <? w)%nat then NaN else mean win.

Definition rolling_mean (w : nat) (s : list f64) : list f64 :=
  map (fun i => window_mean w (window_at w i s)) (seq 0 (length s)).

Fixpoint map2 {A B C} (f : A -> B -> C) (s : list A) (t : list B)
  : list C :=
  match s, t with
  | x :: s', y :: t' => f x y :: map2 f s' t'
  | _, _ => []
  end.

End Series.

(* ===================================================================== *)
(** ** RSI (lines 80-88) *)
(* ===================================================================== *)

Definition window_length : nat := 14.

Definition delta (close : list f64) : list f64 := Series.diff close.

Definition gain (close : list f64) : list f64 :=
  let delta := delta close in
  Series.rolling_mean window_length
    (Series.where_ (fun d => d >? Num 0)%f64 (Num 0) delta).

Definition loss (close : list f64) : list f64 :=
  let delta := delta close in
  Series.rolling_mean window_length
    (Series.neg (Series.where_ (fun d => d <? Num 0)%f64 (Num 0) delta)).

Definition rs (close : list f64) : list f64 :=
  Series.map2 F.div (gain close) (loss close).

Definition rsi (close : list f64) : list f64 :=
  map (fun r => Num 100 - Num 100 / (Num 1 + r))%f64 (rs close).

Definition latest_rsi (close : list f64) : M f64 :=
  Series.iloc_last (rsi close).

(** A column of finite prices. *)
Definition prices_column (closes : list Q) : list f64 := map Num closes.

(** The closes of the rising scenario, and 14 alternating closes. *)
Definition closes_100_to_115 : list Q :=
  [100; 101; 102; 103; 104; 105; 106; 107;
   108; 109; 110; 111; 112; 113; 114; 115].

Definition closes_2_1_14 : list Q := [2; 1; 2; 1; 2; 1; 2; 1; 2; 1; 2; 1; 2; 1].


Definition closes_flat_15 : list Q :=
  [7; 7; 7; 7; 7; 7; 7; 7; 7; 7; 7; 7; 7; 7; 7].

(** A forecast frame whose largest value, 9, is reached four times (under
    three different fractions), first at the second row. *)
Definition future_df_with_ties : list (Z * Q) :=
  [(15%Z, 3); (30%Z, 9); (45%Z, 4); (60%Z, 18 # 2); (75%Z, 9);
   (90%Z, 1); (105%Z, 2); (120%Z, 27 # 3)].


(* ===================================================================== *)
(** ** Selection and fetch (lines 26-62) *)
(* ===================================================================== *)

Definition cryptocurrencies : list (string * string) :=
  [ ("Bitcoin", "bitcoin");
    ("Ethereum", "ethereum");
    ("XRP", "ripple");
    ("Kaspa", "kaspa");
    ("Binance Coin", "binancecoin");
    ("Cardano", "cardano") ]%string.

Fixpoint lookup (k : string) (d : list (string * string)) : M string :=
  match d with
  | [] => raise (KeyError k)
  | (k', v) :: d' => if String.eqb k k' then ret v else lookup k d'
  end.

(** [cryptocurrencies[selected_crypto]] *)
Definition crypto_id (selected_crypto : string) : M string :=
  lookup selected_crypto cryptocurrencies.

(** Timestamps are counted in milliseconds, the unit of the provider. *)
Definition hours (n : Z) : Z := (n * 3600 * 1000)%Z.
Definition minutes (n : Z) : Z := (n * 60 * 1000)%Z.

(** One [[timestamp, price]] pair of the provider's answer. *)
Definition PriceSample : Type := (Z * Q)%type.

(** Lines 60-62: the frame indexed by the timestamp moved to GMT-3. *)
Definition df (prices : list PriceSample) : list (Z * Q) :=
  map (fun s => (fst s - hours 3, snd s)%Z) prices.

(* ===================================================================== *)
(** ** Aggregation into 15-minute candles (lines 64-77) *)
(* ===================================================================== *)

Record Candle : Type := mkCandle {
  start : Z;
  open : f64;
  high : f64;
  low : f64;
  close : f64
}.

Module Resample.

(** The width of a ["15T"] bin. *)
Definition freq : Z := minutes 15.

(** The left edge of the bin a timestamp falls in. *)
Definition floor_bin (t : Z) : Z := (freq * (t / freq))%Z.

(** [resample] groups on a sorted index: it sorts the rows first, with a
    stable sort, when they are not in time order. *)
Fixpoint insert (r : Z * Q) (rows : list (Z * Q)) : list (Z * Q) :=
  match rows with
  | [] => [r]
  | r' :: t => if (fst r <=? fst r')%Z then r :: rows else r' :: insert r t
  end.

Definition sort_index (rows : list (Z * Q)) : list (Z * Q) :=
  fold_right insert [] rows.

(** The bin labels: every left edge from the bin of the first row to the
    bin of the last one, whether a row falls in the bin or not. *)
Definition bin_labels (sorted : list (Z * Q)) : list Z :=
  match sorted with
  | [] => []
  | r0 :: _ =>
      let first := floor_bin (fst r0) in
      let last := floor_bin (fst (last sorted r0)) in
      map (fun k => (first + freq * Z.of_nat k)%Z)
          (seq 0 (S (Z.to_nat ((last - first) / freq))))
  end.

Definition in_bin (b : Z) (r : Z * Q) : bool := (floor_bin (fst r) =? b)%Z.

(** The four aggregations; each is NaN on a bin without rows. *)
Definition first (ps : list Q) : f64 :=
  match ps with [] => NaN | p :: _ => Num p end.

Definition last (ps : list Q) : f64 :=
  match rev ps with [] => NaN | p :: _ => Num p end.

Definition max (ps : list Q) : f64 :=
  match ps with [] => NaN | p :: t => Num (fold_left Qmax t p) end.

Definition min (ps : list Q) : f64 :=
  match ps with [] => NaN | p :: t => Num (fold_left Qmin t p) end.

Definition agg (b : Z) (sorted : list (Z * Q)) : Candle :=
  let ps := map snd (filter (in_bin b) sorted) in
  {| start := b; open := first ps; high := max ps;
     low := min ps; close := last ps |}.

(** [df.resample("15T").agg({...})] *)
Definition resample_agg (rows : list (Z * Q)) : list Candle :=
  let sorted := sort_index rows in
  map (fun b => agg b sorted) (bin_labels sorted).

(** [dropna]: a row with a NaN cell goes. *)
Definition complete (c : Candle) : bool :=
  F.notna (open c) && F.notna (high c) && F.notna (low c)
  && F.notna (close c).

Definition dropna (rows : list Candle) : list Candle :=
  filter complete rows.

End Resample.

Definition ohlc (prices : list PriceSample) : list Candle :=
  Resample.dropna (Resample.resample_agg (df prices)).

Definition close_column (rows : list Candle) : list f64 := map close rows.

(* ===================================================================== *)
(** ** Forecast frame (lines 90-111) *)
(* ===================================================================== *)

Definition forecast_steps : nat := 8.

(** [training_data.index[-1]] *)
Definition index_last (rows : list Candle) : M Z :=
  match rev rows with
  | c :: _ => ret (start c)
  | [] => raise (IndexError "index -1 is out of bounds for axis 0 with size 0")
  end.

Definition future_timestamps (training_data : list Candle) : M (list Z) :=
  t <- index_last training_data ;;
  ret (map (fun i => (t + minutes (15 * Z.of_nat i))%Z)
           (seq 1 forecast_steps)).

(** Lines 101-104: the constructor pairs the timestamps with the estimator's
    values by position and refuses columns of different lengths. *)
Definition future_df (future_timestamps : list Z) (forecast : list Q)
  : M (list (Z * Q)) :=
  if (length future_timestamps =? length forecast)%nat
  then ret (combine future_timestamps forecast)
  else raise (ValueError "array length does not match index length").

Definition predicted_close (future_df : list (Z * Q)) : list Q :=
  map snd future_df.

(** [future_df["predicted_close"].max()] *)
Definition max_future_price (future_df : list (Z * Q)) : f64 :=
  Resample.max (predicted_close future_df).

(** The scan of [idxmax]: the label kept changes only on a strictly larger
    value. *)
Fixpoint idxmax_from (best_t : Z) (best : Q) (rows : list (Z * Q)) : Z :=
  match rows with
  | [] => best_t
  | (t, p) :: rows' =>
      if F.Qltb best p then idxmax_from t p rows'
      else idxmax_from best_t best rows'
  end.

(** [future_df["predicted_close"].idxmax()] *)
Definition max_future_time (future_df : list (Z * Q)) : M Z :=
  match future_df with
  | [] => raise (ValueError "attempt to get argmax of an empty sequence")
  | (t, p) :: rows => ret (idxmax_from t p rows)
  end.

(* ===================================================================== *)
(** ** Recommendation (lines 159-168) *)
(* ===================================================================== *)

Inductive Recommendation : Type := COMPRAR | VENDER | RETER.

(** [ohlc["close"].iloc[-4:].mean()] *)
Definition recent_moving_avg (ohlc : list Candle) : f64 :=
  Series.mean (Series.iloc_tail 4 (close_column ohlc)).

(** [forecast.diff().mean()], in the exact reading: the differences and
    their sum are not rounded ([B64.trend] rounds them). *)
Definition trend (forecast : list f64) : f64 :=
  Series.mean (Series.diff forecast).

(** Python's [a and b]: [b] is evaluated only when [a] is true. *)
Definition and_then (a : bool) (b : M bool) : M bool :=
  if a then b else ret false.

Definition recommendation (forecast : list f64) (recent_moving_avg : f64)
  : M Recommendation :=
  buy <- and_then (trend forecast >? Num 0)%f64
           (x <- Series.iloc_last forecast ;;
            ret (x <? recent_moving_avg)%f64) ;;
  match buy with
  | true => ret COMPRAR
  | false =>
      sell <- and_then (trend forecast <? Num 0)%f64
                (x <- Series.iloc_last forecast ;;
                 ret (x >? recent_moving_avg)%f64) ;;
      match sell with
      | true => ret VENDER
      | false => ret RETER
      end
  end.

(* ===================================================================== *)
(** ** The binary64 reading of lines 80-88 and 160-166 *)
(* ===================================================================== *)

(** The same lines on binary64 values, with the algorithms that pandas and
    numpy run on a [float64] column. *)
Module B64.
Import PrimFloat FloatOps SpecFloat.
Local Open Scope float_scope.

(** [x > y] *)
Definition gtb (x y : float) : bool := y <? x.

(** C's [signbit]: set on negative values, on [-0.0] and on [-inf]. *)
Definition signbit (x : float) : bool :=
  match classify x with
  | FloatClass.NNormal | FloatClass.NSubn | FloatClass.NZero
  | FloatClass.NInf => true
  | _ => false
  end.

(** A count as a [float64]. *)
Definition of_Z (n : Z) : float :=
  if (n <? 0)%Z then - of_uint63 (Uint63.of_Z (- n))
  else of_uint63 (Uint63.of_Z n).

Fixpoint diff_from (prev : float) (s : list float) : list float :=
  match s with
  | [] => []
  | x :: t => (x - prev) :: diff_from x t
  end.

(** [s.diff()]: the first cell has no predecessor and is NaN. *)
Definition diff (s : list float) : list float :=
  match s with
  | [] => []
  | x :: t => nan :: diff_from x t
  end.

(** [s.where(cond, other)] *)
Definition where_ (cond : float -> bool) (other : float) (s : list float)
  : list float :=
  map (fun x => if cond x then x else other) s.

(** [-s]: the negation of [0.0] is [-0.0]. *)
Definition neg (s : list float) : list float := map opp s.

(** numpy's pairwise summation of a contiguous [float64] array, on a block
    of 8 to 128 cells: 8 running sums over the strides, added as a tree,
    then the cells left over. *)
Definition unrolled (a : list float) : float :=
  let blocks := (length a / 8)%nat in
  let r := fold_left
             (fun r k => Series.map2 add r (firstn 8 (skipn (8 * k) a)))
             (seq 1 (blocks - 1)) (firstn 8 a) in
  let res :=
    match r with
    | [r0; r1; r2; r3; r4; r5; r6; r7] =>
        ((r0 + r1) + (r2 + r3)) + ((r4 + r5) + (r6 + r7))
    | _ => nan
    end in
  fold_left add (skipn (8 * blocks) a) res.

(** Fewer than 8 cells are added from left to right, starting from 0; more
    than 128 are split in two halves (the first one of a multiple of 8
    cells).  The halving ends within as many steps as there are cells. *)
Fixpoint pairwise_sum (fuel : nat) (a : list float) : float :=
  let n := length a in
  if (n <? 8)%nat then fold_left add a 0
  else if (n <=? 128)%nat then unrolled a
  else
    match fuel with
    | O => nan
    | S fuel' =>
        let n2 := (n / 2)%nat in
        let n2 := (n2 - n2 mod 8)%nat in
        pairwise_sum fuel' (firstn n2 a) + pairwise_sum fuel' (skipn n2 a)
    end.

(** [values.sum()]: the reduction starts from the identity 0. *)
Definition sum (a : list float) : float := 0 + pairwise_sum (length a) a.

(** [s.mean()] (pandas' [nanmean]): the NaN cells are replaced by 0 in the
    sum and left out of the count; NaN when nothing is left. *)
Definition mean (s : list float) : float :=
  let values := map (fun v => if is_nan v then 0 else v) s in
  let count := length (filter (fun v => negb (is_nan v)) s) in
  let the_sum := sum values in
  if (0 <? count)%nat then the_sum / of_Z (Z.of_nat count) else nan.

(** The state of pandas' [roll_mean] between two cells. *)
Record mean_state : Type := mkState {
  nobs : Z;
  neg_ct : Z;
  sum_x : float;
  compensation_add : float;
  compensation_remove : float;
  num_consecutive_same_value : Z;
  prev_value : float
}.

(** [add_mean]: a cell enters the window (Kahan summation). *)
Definition add_mean (val : float) (st : mean_state) : mean_state :=
  if val =? val then
    let y := val - compensation_add st in
    let t := sum_x st + y in
    {| nobs := nobs st + 1;
       neg_ct := if signbit val then neg_ct st + 1 else neg_ct st;
       sum_x := t;
       compensation_add := t - sum_x st - y;
       compensation_remove := compensation_remove st;
       num_consecutive_same_value :=
         if val =? prev_value st then num_consecutive_same_value st + 1
         else 1;
       prev_value := val |}
  else st.

(** [remove_mean]: a cell leaves the window. *)
Definition remove_mean (val : float) (st : mean_state) : mean_state :=
  if val =? val then
    let y := - val - compensation_remove st in
    let t := sum_x st + y in
    {| nobs := nobs st - 1;
       neg_ct := if signbit val then neg_ct st - 1 else neg_ct st;
       sum_x := t;
       compensation_add := compensation_add st;
       compensation_remove := t - sum_x st - y;
       num_consecutive_same_value := num_consecutive_same_value st;
       prev_value := prev_value st |}
  else st.

(** [calc_mean]: the cell of the output, NaN until the window holds [minp]
    cells that are not NaN. *)
Definition calc_mean (minp : Z) (st : mean_state) : float :=
  if ((minp <=? nobs st) && (0 <? nobs st))%Z then
    let result := sum_x st / of_Z (nobs st) in
    if (nobs st <=? num_consecutive_same_value st)%Z then prev_value st
    else if (neg_ct st =? 0)%Z && (result <? 0) then 0
    else if (neg_ct st =? nobs st)%Z && (0 <? result) then 0
    else result
  else nan.

(** The cells from position [i] on: the cell [w] places back leaves the
    window, the cell at [i] enters it. *)
Fixpoint roll_from (w : nat) (minp : Z) (values : list float) (i : nat)
  (rest : list float) (st : mean_state) : list float :=
  match rest with
  | [] => []
  | val :: rest' =>
      let st :=
        if (w <=? i)%nat then remove_mean (nth (i - w) values nan) st
        else st in
      let st := add_mean val st in
      calc_mean minp st :: roll_from w minp values (S i) rest' st
  end.

(** pandas' [roll_mean] on the bounds of a fixed window of [w >= 2] cells:
    the state is set up on the first cell and carried along the column. *)
Definition roll_mean (w : nat) (minp : Z) (values : list float)
  : list float :=
  match values with
  | [] => []
  | v0 :: rest =>
      let st := add_mean v0 (mkState 0 0 0 0 0 0 v0) in
      calc_mean minp st :: roll_from w minp values 1 rest st
  end.

(** [s.rolling(window=w).mean()]: infinite cells are taken as missing, and
    [min_periods] defaults to the window. *)
Definition rolling_mean (w : nat) (s : list float) : list float :=
  roll_mean w (Z.of_nat w)
    (map (fun v => if is_infinity v then nan else v) s).

(** Lines 80-85. *)
Definition delta (close : list float) : list float := diff close.

Definition gain (close : list float) : list float :=
  let delta := delta close in
  rolling_mean window_length (where_ (fun d => gtb d 0) 0 delta).

Definition loss (close : list float) : list float :=
  let delta := delta close in
  rolling_mean window_length (neg (where_ (fun d => d <? 0) 0 delta)).

Definition rs (close : list float) : list float :=
  Series.map2 div (gain close) (loss close).

Definition rsi (close : list float) : list float :=
  map (fun r => 100 - 100 / (1 + r)) (rs close).

(** Line 88. *)
Definition latest_rsi (close : list float) : M float :=
  Series.iloc_last (rsi close).

(** Line 160: [ohlc["close"].iloc[-4:].mean()] *)
Definition recent_moving_avg (close : list float) : float :=
  mean (Series.iloc_tail 4 close).

(** [forecast.diff().mean()] *)
Definition trend (forecast : list float) : float := mean (diff forecast).

(** Lines 161-166. *)
Definition recommendation (forecast : list float) (recent_moving_avg : float)
  : M Recommendation :=
  buy <- and_then (gtb (trend forecast) 0)
           (x <- Series.iloc_last forecast ;;
            ret (x <? recent_moving_avg)) ;;
  match buy with
  | true => ret COMPRAR
  | false =>
      sell <- and_then (trend forecast <? 0)
                (x <- Series.iloc_last forecast ;;
                 ret (gtb x recent_moving_avg)) ;;
      match sell with
      | true => ret VENDER
      | false => ret RETER
      end
  end.

(** Series that never fall, or never rise, from one cell to the next. *)
Fixpoint chain (R : float -> float -> bool) (prev : float)
  (s : list float) : bool :=
  match s with
  | [] => true
  | x :: t => R prev x && chain R x t
  end.

Definition never_falls (s : list float) : bool :=
  match s with
  | [] => true
  | x :: t => chain leb x t
  end.

Definition never_rises (s : list float) : bool :=
  match s with
  | [] => true
  | x :: t => chain (fun a b => b <=? a) x t
  end.

(** The sign of a binary64 value, read on its sign, mantissa and exponent:
    [sgn b] holds of NaN, of the two zeros and of the values whose sign
    bit is [b]; [signed b] leaves out the zero of the other sign. *)
Definition sgn (b : bool) (s : spec_float) : Prop :=
  match s with
  | S754_nan | S754_zero _ => True
  | S754_infinity s | S754_finite s _ _ => s = b
  end.

Definition signed (b : bool) (s : spec_float) : Prop :=
  match s with
  | S754_nan => True
  | S754_zero s | S754_infinity s | S754_finite s _ _ => s = b
  end.

Definition signs (b : bool) (x : float) : Prop := sgn b (Prim2SF x).

(** The 16 rising closes 100, 101, ..., 115. *)
Definition rising_closes : list float :=
  [100; 101; 102; 103; 104; 105; 106; 107;
   108; 109; 110; 111; 112; 113; 114; 115].

(** 22 closes between 10 and 12.5 with one outlier, 2^53, at the 7th. *)
Definition closes_with_spike : list float :=
  [10; 10; 10.5; 10.5; 10.5; 10; 9007199254740992; 11; 11; 11; 11;
   10.5; 10.5; 10.5; 10.5; 10.5; 11.5; 11.5; 11.5; 12.5; 12.5; 12.5].

(** A forecast that jumps to 2^54 and ends at 1, above its start; one that
    comes back to its start, 0.1; and a flat one. *)
Definition forecast_cancelling : list float :=
  [0; 0x1p54; 0x1p54; 0x1p54; 0x1p54; 0x1p54; 0x1p54; 1].

Definition forecast_back_to_start : list float :=
  [0.1; 0.1; 0.4; 0.2; 0.2; 0.2; 0.2; 0.1].

Definition forecast_flat : list float := repeat 5 8.

End B64.

(* ===================================================================== *)
(** ** The run *)
(* ===================================================================== *)

(** What a run that reaches the end has put on the page. *)
Record Dashboard : Type := mkDashboard {
  coin : string;
  candlesticks : list Candle;
  rsi_line : list f64;
  rsi_label : f64;
  forecast_line : list (Z * Q);
  peak_price : f64;
  peak_time : Z;
  advice : Recommendation
}.

Section Run.

(** The provider's client: coin identifier, currency, from and to (in
    seconds); it answers with the price list or raises. *)
Variable get_coin_market_chart_range_by_id :
  string -> string -> Z -> Z -> M (list PriceSample).

(** The estimator: the closes it is fitted on and the number of steps; it
    answers with the forecast values or raises. *)
Variable arima_forecast : list f64 -> nat -> M (list Q).

(** The zone of the host: [timestamp t] is the POSIX time (milliseconds)
    at which the wall clock of the host reads [t], which is what
    [datetime.timestamp] computes on a naive local datetime.  The offset
    between the two is not the same all year in a zone with daylight
    saving time. *)
Variable timestamp : Z -> Z.

(** Lines 42-47, when the wall clock of the host reads [now]
    (milliseconds): the 30 hours are subtracted on the wall clock, each
    bound is then converted to POSIX time, and [int] truncates it to
    seconds. *)
Definition end_date (now : Z) : Z := now.

Definition start_date (now : Z) : Z := (end_date now - hours 30)%Z.

Definition start_timestamp (now : Z) : Z :=
  Z.quot (timestamp (start_date now)) 1000.

Definition end_timestamp (now : Z) : Z :=
  Z.quot (timestamp (end_date now)) 1000.

(** One run of the script.  All the lines that can raise come before
    [st.pyplot(fig)], except the recommendation, which never raises: a run
    that raises shows no chart.  The RSI and the recommendation are in the
    exact reading here; their binary64 reading is [B64]. *)
Definition run (now : Z) (selected_crypto : string) : M Dashboard :=
  crypto_id <- crypto_id selected_crypto ;;
  prices <- get_coin_market_chart_range_by_id
              crypto_id "usd"%string
              (start_timestamp now) (end_timestamp now) ;;
  let ohlc := ohlc prices in
  let rsi := rsi (close_column ohlc) in
  latest_rsi <- Series.iloc_last rsi ;;
  let training_data := Series.iloc_tail 96 ohlc in
  forecast <- arima_forecast (close_column training_data) forecast_steps ;;
  future_timestamps <- future_timestamps training_data ;;
  future_df <- future_df future_timestamps forecast ;;
  let max_future_price := max_future_price future_df in
  max_future_time <- max_future_time future_df ;;
  let recent_moving_avg := recent_moving_avg ohlc in
  recommendation <- recommendation (map Num forecast) recent_moving_avg ;;
  ret {| coin := selected_crypto;
         candlesticks := Series.iloc_tail 16 ohlc;
         rsi_line := Series.iloc_tail 16 rsi;
         rsi_label := latest_rsi;
         forecast_line := future_df;
         peak_price := max_future_price;
         peak_time := max_future_time;
         advice := recommendation |}.

End Run.

(** A row of [combined_df] (line 107): the columns of the candle table,
    which holds the RSI by then, and the column of the forecast frame; a
    cell of a column that the frame of the row lacks is NaN. *)
Record CombinedRow : Type := mkCombinedRow {
  c_index : Z;
  c_open : f64;
  c_high : f64;
  c_low : f64;
  c_close : f64;
  c_rsi : f64;
  c_predicted_close : f64
}.

Definition of_candle (c : Candle) (r : f64) : CombinedRow :=
  {| c_index := start c; c_open := open c; c_high := high c;
     c_low := low c; c_close := close c; c_rsi := r;
     c_predicted_close := NaN |}.

Definition of_forecast (row : Z * Q) : CombinedRow :=
  {| c_index := fst row; c_open := NaN; c_high := NaN; c_low := NaN;
     c_close := NaN; c_rsi := NaN; c_predicted_close := Num (snd row) |}.

(** [pd.concat([ohlc.iloc[-16:], future_df])] *)
Definition combined_df (ohlc : list Candle) (rsi : list f64)
  (future_df : list (Z * Q)) : list CombinedRow :=
  Series.map2 of_candle (Series.iloc_tail 16 ohlc) (Series.iloc_tail 16 rsi)
  ++ map of_forecast future_df.

(** Whether an error message names the coin. *)
Definition names_coin (selected_crypto : string) (e : exn) : bool :=
  match String.index 0 selected_crypto (exn_message e) with
  | Some _ => true
  | None => false
  end.

(** Stand-ins for the two collaborators, for concrete runs: a provider that
    answers with a fixed list, and an estimator that repeats the last close
    (0 when there is none or it is not finite). *)
Definition fixed_provider (answer : list PriceSample)
  : string -> string -> Z -> Z -> M (list PriceSample) :=
  fun _ _ _ _ => ret answer.

Definition persistence_forecast (closes : list f64) (steps : nat)
  : M (list Q) :=
  ret (repeat (match rev closes with Num q :: _ => q | _ => 0 end) steps).

(** Stand-ins that fail or break the contract: a provider that raises, an
    estimator that raises, and one that returns 3 values whatever the
    number of steps asked. *)
Definition failing_provider (e : exn)
  : string -> string -> Z -> Z -> M (list PriceSample) :=
  fun _ _ _ _ => raise e.

Definition failing_forecast (e : exn) (closes : list f64) (steps : nat)
  : M (list Q) :=
  raise e.

Definition short_forecast (closes : list f64) (steps : nat) : M (list Q) :=
  ret [1; 2; 3].

(** Stand-ins for the zone of the host: UTC, and a zone that is 3 hours
    behind UTC until the wall clock reads [change] and 2 hours behind from
    then on. *)
Definition utc_clock (t : Z) : Z := t.

Definition dst_clock (change t : Z) : Z :=
  if (t <? change)%Z then (t + hours 3)%Z else (t + hours 2)%Z.

(** A provider that knows one coin only. *)
Definition bitcoin_only_provider (answer : list PriceSample)
  : string -> string -> Z -> Z -> M (list PriceSample) :=
  fun id _ _ _ =>
    if String.eqb id "bitcoin" then ret answer
    else raise (ProviderError "coin not found").


(** Three samples: two in one bin (the second one later than the third
    of the list), and one an hour later. *)
Definition three_samples : list PriceSample :=
  [(1700000000000%Z, 5); (1700003600000%Z, 6); (1700000000001%Z, 7)].

Definition first_candle_of_three : Candle :=
  mkCandle 1699988400000 (Num 5) (Num 7) (Num 5) (Num 7).

Definition second_candle_of_three : Candle :=
  mkCandle 1699992000000 (Num 6) (Num 6) (Num 6) (Num 6).

(* ===================================================================== *)
(** ** Predicates of the statements *)
(* ===================================================================== *)

(** A finite cell that is not negative. *)
Definition nonneg (x : f64) : Prop := exists q, x = Num q /\ 0 <= q.

(** A finite cell, or the NaN of a missing value. *)
Definition finite_or_nan (x : f64) : Prop := x = NaN \/ exists q, x = Num q.

(** An RSI cell is undefined when it is NaN. *)
Definition undefined (x : f64) : Prop := x = NaN.

(** [m] is the largest value of a column. *)
Definition is_max (m : Q) (values : list Q) : Prop :=
  (exists v, In v values /\ v == m) /\ forall p, In p values -> p <= m.

(** [t] labels the first row of the frame whose value is [m]: the rows
    before it are strictly smaller. *)
Definition first_at (rows : list (Z * Q)) (m : Q) (t : Z) : Prop :=
  exists i v,
    nth_error rows i = Some (t, v)
    /\ v == m
    /\ forall j row, (j < i)%nat -> nth_error rows j = Some row ->
                     snd row < m.

(** A finite cell that is zero, and one that is positive. *)
Definition zero_cell (x : f64) : Prop := exists q, x = Num q /\ q == 0.

Definition pos_cell (x : f64) : Prop := exists q, x = Num q /\ 0 < q.

Definition neg_cell (x : f64) : Prop := exists q, x = Num q /\ q < 0.



Definition flat (closes : list Q) : Prop :=
  StronglySorted Qeq closes.

(* ===================================================================== *)
(** * Properties *)
(* ===================================================================== *)

(** ** Comparisons and arithmetic of cells *)

Lemma Qltb_lt (a b : Q) : F.Qltb a b = true <-> a < b.
Proof.
  unfold F.Qltb. rewrite negb_true_iff. split.
  - intros H. apply Qnot_le_lt. intros Hle.
    apply Qle_bool_iff in Hle. congruence.
  - intros H. destruct (Qle_bool b a) eqn:E; [|reflexivity].
    apply Qle_bool_iff in E. lra.
Qed.

Lemma Qltb_ge (a b : Q) : F.Qltb a b = false <-> b <= a.
Proof.
  unfold F.Qltb. rewrite negb_false_iff. apply Qle_bool_iff.
Qed.

(** ** Series *)

Lemma iloc_tail_pos {A} (n : nat) (s : list A) :
  (0 < n)%nat -> Series.iloc_tail n s = skipn (length s - n) s.
Proof. destruct n; [lia | reflexivity]. Qed.

Lemma iloc_last_app {A} (s : list A) (x : A) :
  Series.iloc_last (s ++ [x]) = inr x.
Proof. unfold Series.iloc_last. rewrite rev_app_distr. reflexivity. Qed.

Lemma iloc_last_In {A} (s : list A) (x : A) :
  Series.iloc_last s = inr x -> In x s.
Proof.
  unfold Series.iloc_last. destruct (rev s) eqn:E; [discriminate|].
  intros H. injection H as <-. apply in_rev. rewrite E. left. reflexivity.
Qed.

Lemma iloc_last_cons {A} (x : A) (s : list A) :
  exists y, Series.iloc_last (x :: s) = inr y.
Proof.
  destruct (exists_last (l := x :: s)) as (s' & y & E); [discriminate|].
  exists y. rewrite E. apply iloc_last_app.
Qed.

Lemma rolling_mean_length (w : nat) (s : list f64) :
  length (Series.rolling_mean w s) = length s.
Proof. unfold Series.rolling_mean. now rewrite length_map, length_seq. Qed.

Lemma rolling_mean_nth (w : nat) (s : list f64) (i : nat) :
  (i < length s)%nat ->
  nth_error (Series.rolling_mean w s) i
  = Some (Series.window_mean w (Series.window_at w i s)).
Proof.
  intros H. unfold Series.rolling_mean.
  rewrite nth_error_map, nth_error_seq.
  destruct (Nat.ltb_spec i (length s)); [reflexivity | lia].
Qed.

Lemma window_at_length (w i : nat) (s : list f64) :
  (i < length s)%nat ->
  length (Series.window_at w i s) = Nat.min (S i) w.
Proof.
  intros H. unfold Series.window_at.
  rewrite length_skipn, length_firstn. lia.
Qed.

Lemma map2_length {A B C} (f : A -> B -> C) (s : list A) (t : list B) :
  length (Series.map2 f s t) = Nat.min (length s) (length t).
Proof.
  revert t. induction s as [|x s IH]; intros [|y t]; simpl; auto.
Qed.

Lemma map2_nth {A B C} (f : A -> B -> C) (s : list A) (t : list B) (i : nat) :
  nth_error (Series.map2 f s t) i
  = match nth_error s i, nth_error t i with
    | Some x, Some y => Some (f x y)
    | _, _ => None
    end.
Proof.
  revert t i. induction s as [|x s IH]; intros [|y t] [|i]; simpl; auto.
  - destruct (nth_error s i); reflexivity.
Qed.

Lemma Forall_firstn' {A} (P : A -> Prop) (n : nat) (s : list A) :
  Forall P s -> Forall P (firstn n s).
Proof.
  intros H. revert n. induction H as [|x s Hx _ IH]; intros [|n]; simpl;
    auto.
Qed.

Lemma Forall_skipn' {A} (P : A -> Prop) (n : nat) (s : list A) :
  Forall P s -> Forall P (skipn n s).
Proof.
  intros H. revert n. induction H as [|x s Hx Hs IH]; intros [|n]; simpl;
    auto.
Qed.

Lemma nonneg_window (w i : nat) (s : list f64) :
  Forall nonneg s -> Forall nonneg (Series.window_at w i s).
Proof.
  intros H. unfold Series.window_at.
  apply Forall_skipn', Forall_firstn', H.
Qed.

Lemma nonneg_notna (s : list f64) :
  Forall nonneg s -> filter F.notna s = s.
Proof.
  induction 1 as [|x s (q & -> & _) _ IH]; simpl; [reflexivity|].
  now rewrite IH.
Qed.

Lemma nonneg_fold_add (s : list f64) :
  Forall nonneg s ->
  forall a, 0 <= a -> exists t, fold_left F.add s (Num a) = Num t /\ 0 <= t.
Proof.
  induction 1 as [|x s (q & -> & Hq) _ IH]; intros a Ha; simpl.
  - exists a. auto.
  - apply IH. lra.
Qed.

Lemma of_nat_pos (n : nat) : 0 < inject_Z (Z.of_nat (S n)).
Proof.
  replace 0 with (inject_Z 0) by reflexivity. rewrite <- Zlt_Qlt. lia.
Qed.

Lemma nonneg_mean (s : list f64) :
  Forall nonneg s -> s <> [] -> nonneg (Series.mean s).
Proof.
  intros H Hne. unfold Series.mean. rewrite (nonneg_notna s H).
  destruct s as [|x s]; [contradiction|].
  destruct (nonneg_fold_add (x :: s) H 0 ltac:(lra)) as (t & Ht & Hpos).
  unfold Series.sum. rewrite Ht. unfold F.of_nat. cbn [length F.div].
  pose proof (of_nat_pos (length s)) as Hn.
  destruct (Qeq_bool (inject_Z (Z.of_nat (S (length s)))) 0) eqn:E.
  - apply Qeq_bool_iff in E. lra.
  - exists (t / inject_Z (Z.of_nat (S (length s)))). split; [reflexivity|].
    apply Qle_shift_div_l; [exact Hn | lra].
Qed.

(** A cell of a rolling mean over cells that are finite and not negative:
    NaN while the window is not full, finite and not negative after. *)
Lemma rolling_mean_cell (w i : nat) (s : list f64) :
  Forall nonneg s -> (0 < w)%nat -> (i < length s)%nat ->
  nth_error (Series.rolling_mean w s) i
  = Some (Series.window_mean w (Series.window_at w i s))
  /\ ((S i < w)%nat ->
      Series.window_mean w (Series.window_at w i s) = NaN)
  /\ ((w <= S i)%nat ->
      nonneg (Series.window_mean w (Series.window_at w i s))).
Proof.
  intros H Hw Hi. split; [now apply rolling_mean_nth|].
  pose proof (nonneg_window w i s H) as Hwin.
  pose proof (window_at_length w i s Hi) as Hlen.
  unfold Series.window_mean. rewrite (nonneg_notna _ Hwin), Hlen.
  split; intros Hc.
  - destruct (Nat.ltb_spec (Nat.min (S i) w) w); [reflexivity | lia].
  - destruct (Nat.ltb_spec (Nat.min (S i) w) w); [lia|].
    apply nonneg_mean; [exact Hwin|].
    intros E. rewrite E in Hlen. cbn [length] in Hlen. lia.
Qed.

(** ** RSI *)

Lemma diff_from_finite (closes : list Q) (p : Q) :
  Forall finite_or_nan (Series.diff_from (Num p) (prices_column closes)).
Proof.
  revert p. induction closes as [|c closes IH]; intros p; simpl; constructor.
  - right. eexists. reflexivity.
  - apply IH.
Qed.

Lemma delta_finite (closes : list Q) :
  Forall finite_or_nan (delta (prices_column closes)).
Proof.
  destruct closes as [|c closes]; simpl; constructor.
  - left. reflexivity.
  - apply diff_from_finite.
Qed.

Lemma delta_length (close : list f64) : length (delta close) = length close.
Proof.
  destruct close as [|x t]; simpl; [reflexivity|]. f_equal.
  revert x. induction t as [|y t IH]; intros x; simpl; [reflexivity|].
  now rewrite IH.
Qed.

Lemma gains_nonneg (s : list f64) :
  Forall finite_or_nan s ->
  Forall nonneg (Series.where_ (fun d => d >? Num 0)%f64 (Num 0) s).
Proof.
  unfold Series.where_. induction 1 as [|x s Hx _ IH]; simpl; constructor;
    [|exact IH].
  destruct Hx as [-> | (q & ->)]; simpl.
  - exists 0. split; [reflexivity | lra].
  - unfold F.gtb. simpl. destruct (F.Qltb 0 q) eqn:E.
    + apply Qltb_lt in E. exists q. split; [reflexivity | lra].
    + exists 0. split; [reflexivity | lra].
Qed.

Lemma losses_nonneg (s : list f64) :
  Forall finite_or_nan s ->
  Forall nonneg
    (Series.neg (Series.where_ (fun d => d <? Num 0)%f64 (Num 0) s)).
Proof.
  unfold Series.neg, Series.where_.
  induction 1 as [|x s Hx _ IH]; simpl; constructor; [|exact IH].
  destruct Hx as [-> | (q & ->)]; simpl.
  - exists (- 0). split; [reflexivity | lra].
  - destruct (F.Qltb q 0) eqn:E.
    + apply Qltb_lt in E. exists (- q). split; [reflexivity | lra].
    + exists (- 0). split; [reflexivity | lra].
Qed.

(** The cells of [gain], [loss], [rs] and [rsi] at one position of a column
    of finite closes: the two rolling means are NaN together (before the
    window is full) or finite and not negative together. *)
Lemma rsi_cell (closes : list Q) (i : nat) :
  (i < length closes)%nat ->
  exists g l,
    nth_error (gain (prices_column closes)) i = Some g
    /\ nth_error (loss (prices_column closes)) i = Some l
    /\ nth_error (rs (prices_column closes)) i = Some (g / l)%f64
    /\ nth_error (rsi (prices_column closes)) i
       = Some (Num 100 - Num 100 / (Num 1 + g / l))%f64
    /\ (((S i < window_length)%nat /\ g = NaN /\ l = NaN)
        \/ ((window_length <= S i)%nat /\ nonneg g /\ nonneg l)).
Proof.
  intros Hi.
  pose proof (delta_finite closes) as Hd.
  pose proof (delta_length (prices_column closes)) as Hlen.
  unfold prices_column in Hlen at 2. rewrite length_map in Hlen.
  assert (Hw : (0 < window_length)%nat) by (unfold window_length; lia).
  destruct (rolling_mean_cell window_length i _ (gains_nonneg _ Hd) Hw)
    as (Hg & Hg1 & Hg2).
  { unfold Series.where_. rewrite length_map, Hlen. exact Hi. }
  destruct (rolling_mean_cell window_length i _ (losses_nonneg _ Hd) Hw)
    as (Hl & Hl1 & Hl2).
  { unfold Series.neg, Series.where_. rewrite !length_map, Hlen. exact Hi. }
  match type of Hg with _ = Some ?x => set (g := x) in * end.
  match type of Hl with _ = Some ?x => set (l := x) in * end.
  exists g, l.
  split; [exact Hg|]. split; [exact Hl|].
  assert (Hrs : nth_error (rs (prices_column closes)) i = Some (g / l)%f64).
  { unfold rs. rewrite map2_nth. unfold gain, loss. rewrite Hg, Hl.
    reflexivity. }
  split; [exact Hrs|].
  split.
  - unfold rsi. rewrite nth_error_map, Hrs. reflexivity.
  - destruct (Nat.lt_ge_cases (S i) window_length) as [Hlt | Hge].
    + left. auto.
    + right. auto.
Qed.

Lemma rsi_length (close : list f64) : length (rsi close) = length close.
Proof.
  unfold rsi, rs. rewrite length_map, map2_length.
  unfold gain, loss. rewrite !rolling_mean_length.
  unfold Series.neg, Series.where_. rewrite !length_map, delta_length.
  apply Nat.min_id.
Qed.

(** The ratio and the RSI on a zero average loss. *)
Lemma rs_zero_loss (a b : Q) :
  0 <= a -> b == 0 ->
  (a == 0 -> (Num a / Num b)%f64 = NaN)
  /\ (0 < a -> (Num a / Num b)%f64 = PosInf).
Proof.
  intros Ha Hb. simpl. rewrite (Qeq_eq_bool _ _ Hb). split; intros H.
  - now rewrite (Qeq_eq_bool _ _ H).
  - destruct (Qeq_bool a 0) eqn:E.
    + apply Qeq_bool_iff in E. lra.
    + destruct (F.Qltb a 0) eqn:E'; [|reflexivity].
      apply Qltb_lt in E'. lra.
Qed.

(** C3.  On the 16 rising closes 100, 101, ..., 115 the last average loss
    is 0 and the last average gain is positive; the division by zero does
    not raise, and the latest RSI is 100. *)
Theorem rising_closes_rsi_is_100 :
  exists g l,
    Series.iloc_last (gain (prices_column closes_100_to_115)) = inr (Num g)
    /\ 0 < g
    /\ Series.iloc_last (loss (prices_column closes_100_to_115)) = inr (Num l)
    /\ l == 0
    /\ latest_rsi (prices_column closes_100_to_115) = inr (Num 100).
Proof.
  exists (14 # 14), (0 # 14).
  repeat split; vm_compute; reflexivity.
Qed.

(** C8, as the spec has it, fails: with 14 candles (fewer than 15) the
    latest RSI is a number.  The NaN that [diff] puts in the first cell is
    replaced by 0 before the rolling mean, so the 14th window is full. *)
Lemma latest_rsi_defined_at_14 :
  (length closes_2_1_14 < 15)%nat
  /\ exists v, latest_rsi (prices_column closes_2_1_14) = inr (Num v)
               /\ ~ undefined (Num v).
Proof.
  split; [simpl; lia|].
  exists (8400 # 182). split; [vm_compute; reflexivity | discriminate].
Qed.

(** C8, amended.  With fewer than 14 candles the latest RSI is undefined:
    it is NaN when there is a candle, and with no candle the selection of
    the last cell raises. *)
Theorem latest_rsi_undefined_below_14 (closes : list Q) :
  (length closes < 14)%nat ->
  latest_rsi (prices_column closes)
  = match closes with
    | [] => inl (IndexError "single positional indexer is out-of-bounds")
    | _ :: _ => inr NaN
    end.
Proof.
  intros Hlen. destruct closes as [|c closes]; [reflexivity|].
  unfold latest_rsi.
  pose proof (rsi_length (prices_column (c :: closes))) as Hl.
  unfold prices_column in Hl at 2. rewrite length_map in Hl.
  destruct (rsi (prices_column (c :: closes))) as [|x s] eqn:E;
    [discriminate|].
  destruct (iloc_last_cons x s) as (y & Hy). rewrite Hy. f_equal.
  apply iloc_last_In in Hy. rewrite <- E in Hy.
  destruct (In_nth_error _ _ Hy) as (i & Hi).
  assert (Hlt : (i < length (c :: closes))%nat).
  { rewrite <- Hl, <- E. apply nth_error_Some. congruence. }
  destruct (rsi_cell (c :: closes) i Hlt) as (g & l & _ & _ & _ & Hr & Hc).
  destruct Hc as [(_ & -> & ->) | (Hge & _)].
  - rewrite Hr in Hi. injection Hi as <-. reflexivity.
  - unfold window_length in Hge. lia.
Qed.

Lemma latest_rsi_undefined_below_14_witness :
  (length [10; 11; 9] < 14)%nat
  /\ latest_rsi (prices_column [10; 11; 9]) = inr NaN.
Proof.
  split; [simpl; lia|].
  apply (latest_rsi_undefined_below_14 [10; 11; 9]). simpl; lia.
Defined.

(** ** Recommendation *)

Lemma recommendation_eq (forecast : list f64) (ma last : f64) :
  Series.iloc_last forecast = inr last ->
  recommendation forecast ma
  = inr (if (Num 0 <? trend forecast)%f64 && (last <? ma)%f64 then COMPRAR
         else if (trend forecast <? Num 0)%f64 && (ma <? last)%f64
              then VENDER
              else RETER).
Proof.
  intros Hlast. unfold recommendation, and_then, F.gtb. rewrite Hlast.
  destruct (Num 0 <? trend forecast)%f64, (trend forecast <? Num 0)%f64;
    cbn; destruct (last <? ma)%f64, (ma <? last)%f64; reflexivity.
Qed.

(** The recommendation never raises: the last forecast point is looked at
    only when the trend is a number, and then there is a point. *)
Lemma recommendation_total (forecast : list f64) (ma : f64) :
  exists r, recommendation forecast ma = inr r.
Proof.
  destruct forecast as [|x s].
  - exists RETER. reflexivity.
  - destruct (iloc_last_cons x s) as (y & Hy).
    rewrite (recommendation_eq _ ma y Hy). eexists. reflexivity.
Qed.

(** ** The binary64 reading: comparisons and special values *)

Section Binary64.
Import PrimFloat FloatOps FloatAxioms SpecFloat.
Local Open Scope float_scope.

Lemma SF_zero : Prim2SF 0 = S754_zero false.
Proof. reflexivity. Qed.

Lemma SF_infinity : Prim2SF infinity = S754_infinity false.
Proof. reflexivity. Qed.

Lemma is_nan_SF (x : float) :
  is_nan x = match Prim2SF x with S754_nan => true | _ => false end.
Proof.
  unfold is_nan. rewrite eqb_spec. unfold SFeqb.
  destruct (Prim2SF x) as [s | s | | s m e]; try destruct s; cbn;
    try reflexivity;
    rewrite Z.compare_refl, Pos.compare_cont_refl; reflexivity.
Qed.

Lemma eqb_zero_SF (x : float) :
  (x =? 0) = match Prim2SF x with S754_zero _ => true | _ => false end.
Proof.
  rewrite eqb_spec, SF_zero.
  destruct (Prim2SF x) as [s | s | | s m e]; try destruct s; reflexivity.
Qed.

(** A value is not both above and below 0, and a zero is neither. *)
Lemma ltb_zero_asym (t : float) : (0 <? t) = true -> (t <? 0) = false.
Proof.
  rewrite !ltb_spec, SF_zero.
  destruct (Prim2SF t) as [s | s | | s m e]; try destruct s; cbn; congruence.
Qed.

Lemma eqb_zero_ltb (t : float) :
  (t =? 0) = true -> (0 <? t) = false /\ (t <? 0) = false.
Proof.
  rewrite eqb_spec, !ltb_spec, SF_zero.
  destruct (Prim2SF t) as [s | s | | s m e]; try destruct s; cbn;
    intros; split; congruence.
Qed.

Lemma signbit_SF (x : float) :
  B64.signbit x
  = match Prim2SF x with
    | S754_zero s | S754_infinity s | S754_finite s _ _ => s
    | S754_nan => false
    end.
Proof.
  unfold B64.signbit. rewrite classify_spec.
  unfold SF64classify, SFclassify.
  destruct (Prim2SF x) as [s | s | | s m e]; try destruct s;
    try reflexivity;
    destruct (Z.eqb (Zpos (digits2_pos m)) prec); reflexivity.
Qed.

(** The division by a zero of either sign: NaN when the numerator is NaN
    or a zero, otherwise the infinity whose sign is the product of the
    signs of the numerator and of the zero. *)
Lemma div_by_zero (g l : float) :
  (l =? 0) = true ->
  (is_nan g = true \/ (g =? 0) = true -> g / l = nan)
  /\ (is_nan g = false -> (g =? 0) = false ->
      g / l = if xorb (B64.signbit g) (B64.signbit l) then neg_infinity
              else infinity).
Proof.
  rewrite is_nan_SF, !eqb_zero_SF, !signbit_SF. intros Hl.
  assert (E : Prim2SF (g / l) = SFdiv prec emax (Prim2SF g) (Prim2SF l))
    by apply div_spec.
  destruct (Prim2SF l) as [sl | sl | | sl ml el]; try discriminate Hl.
  destruct (Prim2SF g) as [sg | sg | | sg mg eg]; cbn in E;
    (split; [intros [H | H]; try discriminate H
            | intros H1 H2; try discriminate H1; try discriminate H2]);
    try (apply Prim2SF_inj; rewrite E; reflexivity).
  all: destruct sg, sl; cbn in E |- *; apply Prim2SF_inj; rewrite E;
    reflexivity.
Qed.

Lemma rsi_of_infinite_rs (r : float) :
  r = infinity \/ r = neg_infinity -> 100 - 100 / (1 + r) = 100.
Proof. intros [-> | ->]; reflexivity. Qed.

(** ** The binary64 reading: the sign of sums, quotients and differences *)

Lemma signed_sgn (b : bool) (s : spec_float) : B64.signed b s -> B64.sgn b s.
Proof. destruct s; cbn; auto. Qed.

(** Rounding keeps the sign it is given. *)
Lemma binary_round_aux_signed (b : bool) (mx ex : Z) (lx : location) :
  B64.signed b (binary_round_aux prec emax b mx ex lx).
Proof.
  unfold binary_round_aux.
  destruct (shr_fexp prec emax mx ex lx) as [mrs' e'].
  destruct (shr_fexp prec emax _ e' loc_Exact) as [mrs'' e''].
  destruct (shr_m mrs''); [reflexivity | | exact I].
  destruct (Z.leb e'' (emax - prec)); reflexivity.
Qed.

Lemma binary_round_signed (b : bool) (m : positive) (e : Z) :
  B64.signed b (binary_round prec emax b m e).
Proof.
  unfold binary_round. destruct (shl_align m e _) as [mz ez].
  apply binary_round_aux_signed.
Qed.

Lemma binary_normalize_sgn (b : bool) (m e : Z) :
  (if b then m <= 0 else 0 <= m)%Z ->
  B64.sgn b (binary_normalize prec emax m e false).
Proof.
  destruct m as [|p|p]; cbn [binary_normalize]; intros H.
  - exact I.
  - destruct b; [lia | apply signed_sgn, binary_round_signed].
  - destruct b; [apply signed_sgn, binary_round_signed | lia].
Qed.

Lemma SFadd_sgn (b : bool) (x y : spec_float) :
  B64.sgn b x -> B64.sgn b y -> B64.sgn b (SFadd prec emax x y).
Proof.
  destruct x as [sx | sx | | sx mx ex], y as [sy | sy | | sy my ey];
    cbn [B64.sgn SFadd]; intros Hx Hy; subst; auto.
  - destruct sx, sy; exact I.
  - destruct b; cbn; reflexivity.
  - apply binary_normalize_sgn. destruct b; cbn [cond_Zopp]; lia.
Qed.

Lemma SFdiv_sgn (b : bool) (x y : spec_float) :
  B64.sgn b x -> B64.signed false y -> B64.sgn b (SFdiv prec emax x y).
Proof.
  destruct x as [sx | sx | | sx mx ex], y as [sy | sy | | sy my ey];
    cbn [B64.sgn B64.signed SFdiv]; intros Hx Hy; subst; auto;
    try (destruct b; cbn; reflexivity).
  destruct (SFdiv_core_binary prec emax _ _ _ _) as [[mz ez] lz].
  replace (xorb b false) with b by (destruct b; reflexivity).
  apply signed_sgn, binary_round_aux_signed.
Qed.

Lemma of_uint63_signed (n : PrimInt63.int) :
  B64.signed false (Prim2SF (of_uint63 n)).
Proof.
  rewrite of_uint63_spec.
  pose proof (Uint63.to_Z_bounded n) as [H _].
  destruct (Uint63.to_Z n) as [|p|p]; cbn [binary_normalize];
    [reflexivity | apply binary_round_signed | lia].
Qed.

Lemma digits2_pos_bounds (m : positive) :
  (2 ^ (Zpos (digits2_pos m) - 1) <= Zpos m < 2 ^ Zpos (digits2_pos m))%Z.
Proof.
  induction m as [p IH | p IH |]; cbn [digits2_pos].
  - rewrite Pos2Z.inj_succ.
    replace (Z.succ (Zpos (digits2_pos p)) - 1)%Z
      with (Z.succ (Zpos (digits2_pos p) - 1))%Z by lia.
    rewrite !Z.pow_succ_r by lia. lia.
  - rewrite Pos2Z.inj_succ.
    replace (Z.succ (Zpos (digits2_pos p)) - 1)%Z
      with (Z.succ (Zpos (digits2_pos p) - 1))%Z by lia.
    rewrite !Z.pow_succ_r by lia. lia.
  - cbn. lia.
Qed.

Lemma iter_xO (m d : positive) :
  Zpos (Pos.iter xO m d) = (Zpos m * 2 ^ Zpos d)%Z.
Proof.
  induction d as [|d IH] using Pos.peano_ind.
  - cbn. lia.
  - rewrite Pos.iter_succ, Pos2Z.inj_succ, Z.pow_succ_r by lia.
    rewrite Pos2Z.inj_xO, IH. lia.
Qed.

Lemma shl_align_value (m : positive) (e e' : Z) :
  (e' <= e)%Z ->
  Zpos (fst (shl_align m e e')) = (Zpos m * 2 ^ (e - e'))%Z.
Proof.
  intros H. unfold shl_align.
  destruct (e' - e)%Z as [|d|d] eqn:E; cbn [fst].
  - replace (e - e')%Z with 0%Z by lia. cbn. lia.
  - lia.
  - rewrite iter_xO. f_equal. f_equal. lia.
Qed.

(** The mantissa of a finite binary64 has at most 53 digits, and exactly
    53 above the smallest exponent. *)
Lemma bounded_digits (m : positive) (e : Z) :
  bounded prec emax m e = true ->
  (Zpos m < 2 ^ 53 /\ -1074 <= e /\ (-1074 < e -> 2 ^ 52 <= Zpos m))%Z.
Proof.
  unfold bounded, canonical_mantissa, fexp, emin, prec, emax.
  intros H. apply andb_prop in H. destruct H as [H _].
  apply Z.eqb_eq in H.
  pose proof (digits2_pos_bounds m) as [Hlo Hhi].
  set (d := Zpos (digits2_pos m)) in *.
  assert (Hd : (0 < d)%Z) by (unfold d; lia).
  split; [|split].
  - assert (d <= 53)%Z by lia.
    apply Z.lt_le_trans with (1 := Hhi).
    apply Z.pow_le_mono_r; lia.
  - lia.
  - intros He. assert (d = 53)%Z by lia.
    replace 52%Z with (d - 1)%Z by lia. exact Hlo.
Qed.

(** The order of two magnitudes, read on the exponents and then on the
    mantissas, is the order of the mantissas once aligned. *)
Lemma aligned_le (m1 : positive) (e1 : Z) (m2 : positive) (e2 : Z) :
  bounded prec emax m1 e1 = true ->
  bounded prec emax m2 e2 = true ->
  match (e1 ?= e2)%Z with
  | Lt => Lt
  | Gt => Gt
  | Eq => Pos.compare_cont Eq m1 m2
  end <> Gt ->
  (Zpos (fst (shl_align m1 e1 (Z.min e1 e2)))
   <= Zpos (fst (shl_align m2 e2 (Z.min e1 e2))))%Z.
Proof.
  intros H1 H2 Hc.
  apply bounded_digits in H1. apply bounded_digits in H2.
  destruct H1 as (H1a & H1b & H1c). destruct H2 as (H2a & H2b & H2c).
  rewrite !shl_align_value by lia.
  destruct (Z.compare_spec e1 e2) as [E | E | E].
  - subst e2. rewrite Z.min_id, Z.sub_diag.
    change (m1 <= m2)%positive in Hc. rewrite Z.pow_0_r, !Z.mul_1_r. lia.
  - rewrite Z.min_l by lia. rewrite Z.sub_diag.
    assert (Hp : (2 ^ 1 <= 2 ^ (e2 - e1))%Z)
      by (apply Z.pow_le_mono_r; lia).
    specialize (H2c ltac:(lia)).
    change (2 ^ 1)%Z with 2%Z in Hp. change (2 ^ 0)%Z with 1%Z.
    change (2 ^ 53)%Z with (2 ^ 52 * 2)%Z in H1a.
    assert (2 ^ 52 * 2 <= Zpos m2 * 2 ^ (e2 - e1))%Z
      by (apply Z.mul_le_mono_nonneg; lia).
    lia.
  - congruence.
Qed.

Lemma aligned_order (sx : bool) (mx : positive) (ex : Z)
  (sy : bool) (my : positive) (ey : Z) :
  bounded prec emax mx ex = true ->
  bounded prec emax my ey = true ->
  SFleb (S754_finite sy my ey) (S754_finite sx mx ex) = true ->
  (cond_Zopp sy (Zpos (fst (shl_align my ey (Z.min ex ey))))
   <= cond_Zopp sx (Zpos (fst (shl_align mx ex (Z.min ex ey)))))%Z.
Proof.
  intros Hx Hy. unfold SFleb, SFcompare.
  destruct sy, sx; cbn [cond_Zopp]; intros Hc; try discriminate Hc;
    try lia.
  - pose proof (aligned_le mx ex my ey Hx Hy) as H.
    change (Pos.compare_cont Eq mx my) with (Pos.compare mx my) in H.
    change (Pos.compare_cont Eq my mx) with (Pos.compare my mx) in Hc.
    rewrite (Z.compare_antisym ey ex), (Pos.compare_antisym my mx) in H.
    assert (Hle : match CompOpp (ey ?= ex)%Z with
                  | Eq => CompOpp (Pos.compare my mx)
                  | Lt => Lt
                  | Gt => Gt
                  end <> Gt).
    { destruct (ey ?= ex)%Z; cbn [CompOpp] in *; try congruence.
      destruct (Pos.compare my mx); cbn in *; congruence. }
    specialize (H Hle). lia.
  - pose proof (aligned_le my ey mx ex Hy Hx) as H.
    rewrite (Z.min_comm ey ex) in H.
    apply H.
    destruct (ey ?= ex)%Z; try congruence.
    destruct (Pos.compare_cont Eq my mx); congruence.
Qed.

(** [x - y] is not below 0 when [y <= x], and not above 0 when [x <= y]. *)
Lemma SFsub_sgn_up (x y : spec_float) :
  valid_binary prec emax x = true -> valid_binary prec emax y = true ->
  SFleb y x = true -> B64.sgn false (SFsub prec emax x y).
Proof.
  destruct x as [sx | sx | | sx mx ex], y as [sy | sy | | sy my ey];
    cbn [valid_binary SFsub]; intros Hx Hy Hc;
    try (destruct sx, sy; try discriminate Hc; cbn; auto; fail);
    try (destruct sx; try discriminate Hc; cbn; auto; fail);
    try (destruct sy; try discriminate Hc; cbn; auto; fail);
    try exact I.
  apply binary_normalize_sgn.
  pose proof (aligned_order sx mx ex sy my ey Hx Hy Hc). lia.
Qed.

Lemma SFsub_sgn_down (x y : spec_float) :
  valid_binary prec emax x = true -> valid_binary prec emax y = true ->
  SFleb x y = true -> B64.sgn true (SFsub prec emax x y).
Proof.
  destruct x as [sx | sx | | sx mx ex], y as [sy | sy | | sy my ey];
    cbn [valid_binary SFsub]; intros Hx Hy Hc;
    try (destruct sx, sy; try discriminate Hc; cbn; auto; fail);
    try (destruct sx; try discriminate Hc; cbn; auto; fail);
    try (destruct sy; try discriminate Hc; cbn; auto; fail);
    try exact I.
  apply binary_normalize_sgn.
  pose proof (aligned_order sy my ey sx mx ex Hy Hx Hc) as H.
  rewrite (Z.min_comm ey ex) in H. lia.
Qed.

Lemma signs_nan (b : bool) : B64.signs b nan.
Proof. exact I. Qed.

Lemma signs_zero (b : bool) : B64.signs b 0.
Proof. exact I. Qed.

Lemma add_signs (b : bool) (x y : float) :
  B64.signs b x -> B64.signs b y -> B64.signs b (x + y).
Proof. unfold B64.signs. rewrite add_spec. apply SFadd_sgn. Qed.

Lemma sub_signs_up (x y : float) :
  (y <=? x) = true -> B64.signs false (x - y).
Proof.
  unfold B64.signs. rewrite leb_spec, sub_spec.
  apply SFsub_sgn_up; apply Prim2SF_valid.
Qed.

Lemma sub_signs_down (x y : float) :
  (x <=? y) = true -> B64.signs true (x - y).
Proof.
  unfold B64.signs. rewrite leb_spec, sub_spec.
  apply SFsub_sgn_down; apply Prim2SF_valid.
Qed.

Lemma of_Z_signed (n : Z) :
  (0 <= n)%Z -> B64.signed false (Prim2SF (B64.of_Z n)).
Proof.
  intros H. unfold B64.of_Z.
  destruct (Z.ltb_spec n 0); [lia | apply of_uint63_signed].
Qed.

Lemma div_count_signs (b : bool) (x : float) (n : nat) :
  B64.signs b x -> B64.signs b (x / B64.of_Z (Z.of_nat n)).
Proof.
  unfold B64.signs. rewrite div_spec. intros H.
  apply SFdiv_sgn; [exact H | apply of_Z_signed; lia].
Qed.

Lemma signs_not_below (t : float) : B64.signs false t -> (t <? 0) = false.
Proof.
  unfold B64.signs. rewrite ltb_spec, SF_zero.
  destruct (Prim2SF t) as [s | s | | s m e]; cbn; intros; subst;
    reflexivity.
Qed.

Lemma signs_not_above (t : float) : B64.signs true t -> (0 <? t) = false.
Proof.
  unfold B64.signs. rewrite ltb_spec, SF_zero.
  destruct (Prim2SF t) as [s | s | | s m e]; cbn; intros; subst;
    reflexivity.
Qed.

(** ** The binary64 reading: sums and means of cells of one sign *)

Lemma fold_add_signs (b : bool) (a : list float) (acc : float) :
  B64.signs b acc -> Forall (B64.signs b) a ->
  B64.signs b (fold_left add a acc).
Proof.
  intros Hacc H. revert acc Hacc.
  induction H as [|x a Hx _ IH]; intros acc Hacc; cbn; auto.
  apply IH. now apply add_signs.
Qed.

Lemma map2_add_signs (b : bool) (s t : list float) :
  Forall (B64.signs b) s -> Forall (B64.signs b) t ->
  Forall (B64.signs b) (Series.map2 add s t).
Proof.
  intros Hs. revert t. induction Hs as [|x s Hx _ IH]; intros t Ht; cbn.
  - constructor.
  - destruct Ht as [|y t Hy Ht]; constructor; auto using add_signs.
Qed.

Lemma unrolled_signs (b : bool) (a : list float) :
  Forall (B64.signs b) a -> B64.signs b (B64.unrolled a).
Proof.
  intros H. unfold B64.unrolled.
  set (ks := seq 1 (length a / 8 - 1)).
  assert (Hr : forall r0, Forall (B64.signs b) r0 ->
            Forall (B64.signs b)
              (fold_left
                 (fun r k => Series.map2 add r (firstn 8 (skipn (8 * k) a)))
                 ks r0)).
  { induction ks as [|k ks IH]; intros r0 H0; cbn [fold_left]; auto.
    apply IH, map2_add_signs; auto using Forall_firstn', Forall_skipn'. }
  specialize (Hr (firstn 8 a) (Forall_firstn' _ _ _ H)).
  apply fold_add_signs; [|auto using Forall_skipn'].
  destruct (fold_left _ ks (firstn 8 a))
    as [|r0 [|r1 [|r2 [|r3 [|r4 [|r5 [|r6 [|r7 [|r8 r]]]]]]]]];
    try apply signs_nan.
  repeat match goal with
         | H : Forall _ (_ :: _) |- _ => inversion H; subst; clear H
         end.
  auto 10 using add_signs.
Qed.

Lemma pairwise_sum_signs (b : bool) (fuel : nat) (a : list float) :
  Forall (B64.signs b) a -> B64.signs b (B64.pairwise_sum fuel a).
Proof.
  revert a. induction fuel as [|fuel IH]; intros a H;
    cbn [B64.pairwise_sum].
  - destruct (length a <? 8)%nat;
      [apply fold_add_signs; [apply signs_zero | exact H]|].
    destruct (length a <=? 128)%nat;
      [now apply unrolled_signs | apply signs_nan].
  - destruct (length a <? 8)%nat;
      [apply fold_add_signs; [apply signs_zero | exact H]|].
    destruct (length a <=? 128)%nat; [now apply unrolled_signs|].
    apply add_signs; apply IH; auto using Forall_firstn', Forall_skipn'.
Qed.

Lemma sum_signs (b : bool) (a : list float) :
  Forall (B64.signs b) a -> B64.signs b (B64.sum a).
Proof.
  intros H. unfold B64.sum.
  apply add_signs; [apply signs_zero | now apply pairwise_sum_signs].
Qed.

(** The mean of cells that are NaN, zero or of one sign is NaN, zero or of
    that sign. *)
Lemma mean_signs (b : bool) (s : list float) :
  Forall (B64.signs b) s -> B64.signs b (B64.mean s).
Proof.
  intros H. unfold B64.mean.
  destruct (0 <? _)%nat; [|apply signs_nan].
  apply div_count_signs, sum_signs.
  induction H as [|x s Hx _ IH]; cbn [map]; constructor; auto.
  destruct (is_nan x); [apply signs_zero | exact Hx].
Qed.

Lemma diff_from_up (x : float) (t : list float) :
  B64.chain leb x t = true -> Forall (B64.signs false) (B64.diff_from x t).
Proof.
  revert x. induction t as [|y t IH]; intros x H; cbn in *.
  - constructor.
  - apply andb_prop in H. destruct H as [H1 H2].
    constructor; [now apply sub_signs_up | now apply IH].
Qed.

Lemma diff_from_down (x : float) (t : list float) :
  B64.chain (fun a b => b <=? a) x t = true ->
  Forall (B64.signs true) (B64.diff_from x t).
Proof.
  revert x. induction t as [|y t IH]; intros x H; cbn in *.
  - constructor.
  - apply andb_prop in H. destruct H as [H1 H2].
    constructor; [now apply sub_signs_down | now apply IH].
Qed.

Lemma trend_up (f : list float) :
  B64.never_falls f = true -> (B64.trend f <? 0) = false.
Proof.
  intros H. apply signs_not_below. unfold B64.trend. apply mean_signs.
  destruct f as [|x t]; cbn [B64.diff]; constructor;
    [apply signs_nan | now apply diff_from_up].
Qed.

Lemma trend_down (f : list float) :
  B64.never_rises f = true -> (0 <? B64.trend f) = false.
Proof.
  intros H. apply signs_not_above. unfold B64.trend. apply mean_signs.
  destruct f as [|x t]; cbn [B64.diff]; constructor;
    [apply signs_nan | now apply diff_from_down].
Qed.

(** The difference of a finite value and itself is [0.0]. *)
Lemma sub_diag_finite (x : float) : is_finite x = true -> x - x = 0.
Proof.
  unfold is_finite, is_infinity. rewrite is_nan_SF, eqb_spec, abs_spec.
  rewrite SF_infinity. intros H. apply Prim2SF_inj. rewrite sub_spec.
  destruct (Prim2SF x) as [s | s | | s m e]; try discriminate H.
  - destruct s; reflexivity.
  - unfold SF64sub. cbn [SFsub]. rewrite Z.sub_diag. reflexivity.
Qed.

Lemma trend_flat (x : float) :
  is_finite x = true -> B64.trend (repeat x 8) = 0.
Proof.
  intros H.
  change (B64.trend (repeat x 8))
    with (B64.mean [nan; x - x; x - x; x - x; x - x; x - x; x - x; x - x]).
  rewrite (sub_diag_finite x H). reflexivity.
Qed.

(** ** The binary64 reading: RSI *)

Lemma b64_diff_length (s : list float) : length (B64.diff s) = length s.
Proof.
  destruct s as [|x t]; [reflexivity|]. cbn [B64.diff length]. f_equal.
  revert x. induction t as [|y t IH]; intros x; cbn; auto.
Qed.

Lemma b64_roll_from_length (w : nat) (minp : Z) (values : list float)
  (i : nat) (rest : list float) (st : B64.mean_state) :
  length (B64.roll_from w minp values i rest st) = length rest.
Proof.
  revert i st. induction rest as [|v rest IH]; intros i st; cbn; auto.
Qed.

Lemma b64_rolling_mean_length (w : nat) (s : list float) :
  length (B64.rolling_mean w s) = length s.
Proof.
  unfold B64.rolling_mean, B64.roll_mean.
  destruct s as [|x s]; [reflexivity|]. cbn [map length].
  now rewrite b64_roll_from_length, length_map.
Qed.

Lemma b64_gain_length (close : list float) :
  length (B64.gain close) = length close.
Proof.
  unfold B64.gain, B64.where_, B64.delta.
  now rewrite b64_rolling_mean_length, length_map, b64_diff_length.
Qed.

Lemma b64_loss_length (close : list float) :
  length (B64.loss close) = length close.
Proof.
  unfold B64.loss, B64.neg, B64.where_, B64.delta.
  now rewrite b64_rolling_mean_length, !length_map, b64_diff_length.
Qed.

Lemma map2_nth_default {A B C} (f : A -> B -> C) (s : list A) (t : list B)
  (i : nat) (a : A) (b : B) (c : C) :
  (i < length s)%nat -> (i < length t)%nat ->
  nth i (Series.map2 f s t) c = f (nth i s a) (nth i t b).
Proof.
  revert t i. induction s as [|x s IH]; intros [|y t] [|i] Hs Ht;
    cbn in *; try lia; [reflexivity|].
  apply IH; lia.
Qed.

(** A cell of the ratio and of the RSI: no line of 84-85 raises. *)
Lemma b64_rs_cell (close : list float) (i : nat) :
  (i < length close)%nat ->
  nth i (B64.rs close) nan
  = nth i (B64.gain close) nan / nth i (B64.loss close) nan.
Proof.
  intros H. unfold B64.rs.
  apply map2_nth_default; [now rewrite b64_gain_length
                          | now rewrite b64_loss_length].
Qed.

Lemma b64_rsi_cell (close : list float) (i : nat) :
  nth i (B64.rsi close) nan = 100 - 100 / (1 + nth i (B64.rs close) nan).
Proof.
  unfold B64.rsi.
  change nan with ((fun r => 100 - 100 / (1 + r)) nan) at 1.
  apply map_nth.
Qed.

(** C4, as the spec has it, fails: at the last candle of the rising closes
    100, ..., 115 the average loss is a zero ([-0.0]: line 83 negates the
    zeros that replace the gains), the ratio is [-inf], not NaN, and the
    RSI is 100, not NaN. *)
Lemma zero_loss_rsi_defined :
  (nth 15 (B64.loss B64.rising_closes) nan =? 0) = true
  /\ nth 15 (B64.gain B64.rising_closes) nan = 1
  /\ nth 15 (B64.loss B64.rising_closes) nan = neg_zero
  /\ nth 15 (B64.rs B64.rising_closes) nan = neg_infinity
  /\ is_nan (nth 15 (B64.rs B64.rising_closes) nan) = false
  /\ nth 15 (B64.rsi B64.rising_closes) nan = 100
  /\ is_nan (nth 15 (B64.rsi B64.rising_closes) nan) = false.
Proof. repeat split; vm_compute; reflexivity. Qed.

(** C4, amended.  At a candle where the 14-period average loss is a zero
    (of either sign) nothing raises, and the ratio is the binary64
    quotient of the average gain by that zero: the ratio and the RSI are
    NaN when the average gain is NaN or a zero too; otherwise the ratio is
    an infinity, negative when the signs of the average gain and of the
    zero differ, and the RSI is 100. *)
Theorem zero_loss_cell (close : list float) (i : nat) :
  (i < length close)%nat ->
  (nth i (B64.loss close) nan =? 0) = true ->
  nth i (B64.rs close) nan
  = nth i (B64.gain close) nan / nth i (B64.loss close) nan
  /\ (is_nan (nth i (B64.gain close) nan) = true
      \/ (nth i (B64.gain close) nan =? 0) = true ->
      nth i (B64.rs close) nan = nan /\ nth i (B64.rsi close) nan = nan)
  /\ (is_nan (nth i (B64.gain close) nan) = false ->
      (nth i (B64.gain close) nan =? 0) = false ->
      nth i (B64.rs close) nan
      = (if xorb (B64.signbit (nth i (B64.gain close) nan))
                 (B64.signbit (nth i (B64.loss close) nan))
         then neg_infinity else infinity)
      /\ nth i (B64.rsi close) nan = 100).
Proof.
  intros Hi Hl. rewrite b64_rsi_cell, (b64_rs_cell close i Hi).
  destruct (div_by_zero (nth i (B64.gain close) nan)
              (nth i (B64.loss close) nan) Hl) as (Hnan & Hinf).
  split; [reflexivity|]. split.
  - intros H. rewrite (Hnan H). split; reflexivity.
  - intros H1 H2. specialize (Hinf H1 H2).
    split; [exact Hinf|]. apply rsi_of_infinite_rs. rewrite Hinf.
    destruct (xorb _ _); auto.
Qed.

Lemma zero_loss_cell_witness :
  (15 < length B64.rising_closes)%nat
  /\ (nth 15 (B64.loss B64.rising_closes) nan =? 0) = true
  /\ is_nan (nth 15 (B64.gain B64.rising_closes) nan) = false
  /\ (nth 15 (B64.gain B64.rising_closes) nan =? 0) = false
  /\ nth 15 (B64.rs B64.rising_closes) nan
     = (if xorb (B64.signbit (nth 15 (B64.gain B64.rising_closes) nan))
                (B64.signbit (nth 15 (B64.loss B64.rising_closes) nan))
        then neg_infinity else infinity)
  /\ nth 15 (B64.rsi B64.rising_closes) nan = 100.
Proof.
  split; [vm_compute; lia|]. split; [reflexivity|].
  split; [reflexivity|]. split; [reflexivity|].
  apply (zero_loss_cell B64.rising_closes 15); try reflexivity.
  vm_compute; lia.
Defined.

(** On 15 flat closes the two averages are zeros and the RSI is NaN. *)
Example zero_loss_zero_gain :
  B64.latest_rsi (repeat 7 15) = inr nan.
Proof. vm_compute. reflexivity. Qed.

(** C5 fails on the code.  The rolling mean is a running sum: once the
    outlier 2^53 has entered and left the window, the sum of the losses is
    off by what was rounded away, and at the last of these 22 candles the
    average loss is below 0.  The ratio is -2 and the RSI is 200. *)
Theorem rsi_above_100 :
  (length B64.closes_with_spike = 22)%nat
  /\ nth 21 (B64.gain B64.closes_with_spike) nan = 0.07142857142857142
  /\ nth 21 (B64.loss B64.closes_with_spike) nan = -0.03571428571428571
  /\ nth 21 (B64.rs B64.closes_with_spike) nan = -2
  /\ B64.latest_rsi B64.closes_with_spike = inr 200
  /\ is_nan 200 = false
  /\ (100 <? 200) = true.
Proof. repeat split; vm_compute; reflexivity. Qed.

(** ** The binary64 reading: recommendation *)

Lemma iloc_last_last {A} (s : list A) (d : A) :
  s <> [] -> Series.iloc_last s = inr (List.last s d).
Proof.
  intros H. destruct (exists_last H) as (s' & a & ->).
  now rewrite iloc_last_app, last_last.
Qed.

Lemma b64_recommendation_eq (forecast : list float) (ma : float) :
  forecast <> [] ->
  B64.recommendation forecast ma
  = inr (if (0 <? B64.trend forecast) && (List.last forecast nan <? ma)
         then COMPRAR
         else if (B64.trend forecast <? 0) && (ma <? List.last forecast nan)
              then VENDER
              else RETER).
Proof.
  intros H. unfold B64.recommendation, and_then, B64.gtb.
  rewrite (iloc_last_last forecast nan H).
  destruct (0 <? B64.trend forecast), (B64.trend forecast <? 0);
    cbn; destruct (List.last forecast nan <? ma),
           (ma <? List.last forecast nan); reflexivity.
Qed.

(** C1.  On 8 forecast points and any recent moving average, the
    recommendation is COMPRAR (buy) exactly when the mean of the successive
    differences, as line 161 computes it, is above 0 and the last point is
    below the moving average, VENDER (sell) exactly when that mean is below
    0 and the last point is above the moving average, and RETER (hold) in
    every other case; a zero mean gives RETER, and the recommendation is
    always one of the three. *)
Theorem recommendation_three_way (forecast : list float) (ma : float) :
  length forecast = 8%nat ->
  (B64.recommendation forecast ma = inr COMPRAR <->
   (0 <? B64.trend forecast) = true
   /\ (List.last forecast nan <? ma) = true)
  /\ (B64.recommendation forecast ma = inr VENDER <->
      (B64.trend forecast <? 0) = true
      /\ (ma <? List.last forecast nan) = true)
  /\ (B64.recommendation forecast ma = inr RETER <->
      ~ ((0 <? B64.trend forecast) = true
         /\ (List.last forecast nan <? ma) = true)
      /\ ~ ((B64.trend forecast <? 0) = true
            /\ (ma <? List.last forecast nan) = true))
  /\ ((B64.trend forecast =? 0) = true ->
      B64.recommendation forecast ma = inr RETER)
  /\ (B64.recommendation forecast ma = inr COMPRAR
      \/ B64.recommendation forecast ma = inr VENDER
      \/ B64.recommendation forecast ma = inr RETER).
Proof.
  intros Hlen.
  assert (Hne : forecast <> []) by (intros ->; discriminate).
  rewrite (b64_recommendation_eq forecast ma Hne).
  pose proof (ltb_zero_asym (B64.trend forecast)) as Hasym.
  pose proof (eqb_zero_ltb (B64.trend forecast)) as Hzero.
  destruct (0 <? B64.trend forecast), (B64.trend forecast <? 0);
    try (specialize (Hasym eq_refl); discriminate);
    destruct (List.last forecast nan <? ma),
      (ma <? List.last forecast nan); cbn [andb];
    intuition (try congruence).
Qed.

Lemma recommendation_three_way_witness :
  length B64.forecast_back_to_start = 8%nat
  /\ B64.recommendation B64.forecast_back_to_start 0.15 = inr COMPRAR.
Proof.
  split; [reflexivity|].
  destruct (recommendation_three_way B64.forecast_back_to_start 0.15
              eq_refl) as (Hbuy & _).
  apply Hbuy. split; reflexivity.
Defined.

(** The three verdicts, on 8 points each.  The first forecast comes back to
    its start, and the mean of its differences is 3.97e-18, not 0. *)
Example recommendation_buy :
  B64.trend B64.forecast_back_to_start = 3.9650822308041303e-18
  /\ B64.recommendation B64.forecast_back_to_start 0.15 = inr COMPRAR.
Proof. split; vm_compute; reflexivity. Qed.

Example recommendation_sell :
  B64.recommendation [8; 7; 6; 5; 4; 3; 2; 1] 0.5 = inr VENDER.
Proof. vm_compute. reflexivity. Qed.

Example recommendation_hold_flat :
  B64.recommendation B64.forecast_flat 9 = inr RETER.
Proof. vm_compute. reflexivity. Qed.

(** The recent moving average is the mean of the last 4 closes, added from
    left to right. *)
Lemma recent_moving_avg_last_4 (rows : list float) (c1 c2 c3 c4 : float) :
  is_nan c1 = false -> is_nan c2 = false ->
  is_nan c3 = false -> is_nan c4 = false ->
  B64.recent_moving_avg (rows ++ [c1; c2; c3; c4])
  = (0 + ((((0 + c1) + c2) + c3) + c4)) / 4.
Proof.
  intros E1 E2 E3 E4. unfold B64.recent_moving_avg.
  rewrite iloc_tail_pos by lia. rewrite length_app. cbn [length].
  replace (length rows + 4 - 4)%nat with (length rows + 0)%nat by lia.
  rewrite skipn_app, Nat.add_0_r, skipn_all.
  replace (length rows - length rows)%nat with 0%nat by lia.
  cbn [skipn app]. unfold B64.mean. cbn [map filter].
  rewrite E1, E2, E3, E4. reflexivity.
Qed.

(** ** The binary64 reading: the trend *)

(** C10, as stated, fails: the differences are rounded one by one and so
    is their sum.  On the first forecast the last point is above the first
    and the mean of the differences is 0, not (1 - 0) / 7; on the second
    the last point is the first and the mean is above 0. *)
Lemma trend_not_by_ends :
  (nth 0 B64.forecast_cancelling nan <? nth 7 B64.forecast_cancelling nan)
  = true
  /\ B64.trend B64.forecast_cancelling = 0
  /\ (0 <? B64.trend B64.forecast_cancelling) = false
  /\ (B64.trend B64.forecast_cancelling
      =? (nth 7 B64.forecast_cancelling nan
          - nth 0 B64.forecast_cancelling nan) / 7) = false
  /\ nth 7 B64.forecast_back_to_start nan
     = nth 0 B64.forecast_back_to_start nan
  /\ (0 <? B64.trend B64.forecast_back_to_start) = true.
Proof. repeat split; vm_compute; reflexivity. Qed.

(** C10, amended.  On 8 forecast points the mean of the successive
    differences is never below 0 when no point is below the one before,
    never above 0 when no point is above the one before, and exactly 0 when
    the 8 points are one finite value. *)
Theorem trend_of_monotone_forecast (forecast : list float) :
  length forecast = 8%nat ->
  (B64.never_falls forecast = true -> (B64.trend forecast <? 0) = false)
  /\ (B64.never_rises forecast = true ->
      (0 <? B64.trend forecast) = false)
  /\ (forall x, is_finite x = true -> forecast = repeat x 8 ->
      B64.trend forecast = 0).
Proof.
  intros _. split; [apply trend_up|]. split; [apply trend_down|].
  intros x Hx ->. now apply trend_flat.
Qed.

Lemma trend_of_monotone_forecast_witness :
  length B64.forecast_flat = 8%nat
  /\ B64.never_falls B64.forecast_flat = true
  /\ B64.never_rises B64.forecast_flat = true
  /\ is_finite 5 = true
  /\ (B64.trend B64.forecast_flat <? 0) = false
  /\ (0 <? B64.trend B64.forecast_flat) = false
  /\ B64.trend B64.forecast_flat = 0.
Proof.
  destruct (trend_of_monotone_forecast B64.forecast_flat eq_refl)
    as (Hup & Hdown & Hflat).
  split; [reflexivity|]. split; [reflexivity|]. split; [reflexivity|].
  split; [reflexivity|].
  split; [apply Hup; reflexivity|].
  split; [apply Hdown; reflexivity|].
  apply (Hflat 5); reflexivity.
Defined.

(** A forecast that never falls and ends above its start, and whose mean
    of differences is 0 all the same: the one difference that is not 0 is
    the smallest positive binary64, and the mean rounds to 0. *)
Example trend_of_rising_forecast_is_zero :
  (0 <? B64.trend [0; 0; 0; 0; 0; 0; 0; 0x1p-1074]) = false
  /\ (nth 0 [0; 0; 0; 0; 0; 0; 0; 0x1p-1074] nan
      <? nth 7 [0; 0; 0; 0; 0; 0; 0; 0x1p-1074] nan) = true
  /\ B64.never_falls [0; 0; 0; 0; 0; 0; 0; 0x1p-1074] = true.
Proof. repeat split; vm_compute; reflexivity. Qed.

End Binary64.

(** ** Peak of the forecast *)

Lemma last_cons_default {A} (x p : A) (t : list A) :
  List.last (x :: t) p = List.last t x.
Proof.
  revert x p. induction t as [|y t IH]; intros x p; [reflexivity|].
  change (List.last (y :: t) p = List.last (y :: t) x).
  now rewrite (IH y p), (IH y x).
Qed.

Lemma Qmax_scan (b p : Q) : Qmax b p = if F.Qltb b p then p else b.
Proof.
  unfold Qmax, GenericMinMax.gmax.
  destruct (F.Qltb b p) eqn:E.
  - apply Qltb_lt in E. now rewrite (proj1 (Qlt_alt b p) E).
  - apply Qltb_ge in E. destruct (b ?= p) eqn:C; try reflexivity.
    pose proof (proj2 (Qlt_alt b p) C). lra.
Qed.

Lemma fold_Qmax_upper (l : list Q) (b : Q) :
  b <= fold_left Qmax l b /\ forall p, In p l -> p <= fold_left Qmax l b.
Proof.
  revert b. induction l as [|x l IH]; intros b; simpl.
  - split; [lra | contradiction].
  - destruct (IH (Qmax b x)) as (Hb & Hl).
    pose proof (Q.le_max_l b x). pose proof (Q.le_max_r b x).
    split; [lra|]. intros p [<- | Hp]; [lra | auto].
Qed.

(** The scan of [idxmax] against the running maximum: either no later row
    beats the value kept, or the label is that of the first row reaching
    the maximum. *)
Lemma idxmax_from_scan (rows : list (Z * Q)) (bt : Z) (b : Q) :
  let m := fold_left Qmax (map snd rows) b in
  (idxmax_from bt b rows = bt /\ m == b)
  \/ (b < m /\ first_at rows m (idxmax_from bt b rows)).
Proof.
  revert bt b. induction rows as [|[t1 p1] rows IH]; intros bt b.
  - left. split; reflexivity.
  - cbn [map snd fold_left idxmax_from]. rewrite Qmax_scan.
    destruct (F.Qltb b p1) eqn:E.
    + apply Qltb_lt in E. right.
      destruct (IH t1 p1) as [(Ht & Hm) | (Hlt & i & v & Hi & Hv & Hbefore)].
      * split; [lra|]. exists 0%nat, p1. rewrite Ht.
        split; [reflexivity|]. split; [symmetry; exact Hm|].
        intros j row Hj. lia.
      * split; [lra|]. exists (S i), v. split; [exact Hi|].
        split; [exact Hv|]. intros [|j] row Hj Hrow.
        -- injection Hrow as <-. exact Hlt.
        -- apply (Hbefore j); [lia | exact Hrow].
    + apply Qltb_ge in E.
      destruct (IH bt b) as [(Ht & Hm) | (Hlt & i & v & Hi & Hv & Hbefore)].
      * left. auto.
      * right. split; [exact Hlt|]. exists (S i), v. split; [exact Hi|].
        split; [exact Hv|]. intros [|j] row Hj Hrow.
        -- injection Hrow as <-. simpl. lra.
        -- apply (Hbefore j); [lia | exact Hrow].
Qed.

Lemma first_at_In (rows : list (Z * Q)) (m : Q) (t : Z) :
  first_at rows m t -> exists v, In v (map snd rows) /\ v == m.
Proof.
  intros (i & v & Hi & Hv & _). exists v. split; [|exact Hv].
  apply nth_error_In in Hi. apply (in_map snd) in Hi. exact Hi.
Qed.

(** C9.  On a forecast frame of 8 rows the peak value is the largest of
    the 8 predicted closes, and the peak timestamp labels the first row
    holding it: every earlier row is strictly smaller. *)
Theorem peak_is_first_maximum (future_df : list (Z * Q)) :
  length future_df = 8%nat ->
  exists m t,
    max_future_price future_df = Num m
    /\ max_future_time future_df = inr t
    /\ is_max m (predicted_close future_df)
    /\ first_at future_df m t.
Proof.
  intros Hlen. destruct future_df as [|[t0 p0] rows]; [discriminate|].
  exists (fold_left Qmax (map snd rows) p0), (idxmax_from t0 p0 rows).
  split; [reflexivity|]. split; [reflexivity|].
  destruct (fold_Qmax_upper (map snd rows) p0) as (Hb & Hl).
  assert (Hfirst : first_at ((t0, p0) :: rows)
                     (fold_left Qmax (map snd rows) p0)
                     (idxmax_from t0 p0 rows)).
  { destruct (idxmax_from_scan rows t0 p0)
      as [(Ht & Hm) | (Hlt & i & v & Hi & Hv & Hbefore)].
    - exists 0%nat, p0. rewrite Ht. split; [reflexivity|].
      split; [symmetry; exact Hm|]. intros j row Hj. lia.
    - exists (S i), v. split; [exact Hi|]. split; [exact Hv|].
      intros [|j] row Hj Hrow.
      + injection Hrow as <-. exact Hlt.
      + apply (Hbefore j); [lia | exact Hrow]. }
  split; [|exact Hfirst]. split.
  - apply (first_at_In _ _ _ Hfirst).
  - intros p [<- | Hp]; [exact Hb | apply Hl, Hp].
Qed.

Lemma peak_is_first_maximum_witness :
  length future_df_with_ties = 8%nat
  /\ exists m t,
       max_future_price future_df_with_ties = Num m
       /\ max_future_time future_df_with_ties = inr t
       /\ is_max m (predicted_close future_df_with_ties)
       /\ first_at future_df_with_ties m t.
Proof.
  split; [reflexivity|].
  apply (peak_is_first_maximum future_df_with_ties). reflexivity.
Defined.

Example peak_of_ties :
  max_future_price future_df_with_ties = Num 9
  /\ max_future_time future_df_with_ties = inr 30%Z.
Proof. split; vm_compute; reflexivity. Qed.

(** ** Forecast frame *)

Lemma iloc_tail_last {A} (n : nat) (rows : list A) (c : A) :
  (0 < n)%nat ->
  exists rows', Series.iloc_tail n (rows ++ [c]) = rows' ++ [c].
Proof.
  intros Hn. rewrite (iloc_tail_pos n _ Hn).
  exists (skipn (length (rows ++ [c]) - n) rows).
  rewrite skipn_app, length_app. cbn [length].
  replace (length rows + 1 - n - length rows)%nat with 0%nat by lia.
  reflexivity.
Qed.

Lemma index_last_app (rows : list Candle) (c : Candle) :
  index_last (rows ++ [c]) = inr (start c).
Proof. unfold index_last. rewrite rev_app_distr. reflexivity. Qed.

(** The constructor never yields a frame of another length than the column
    of timestamps, whatever the estimator returned. *)
Lemma future_df_length (ts : list Z) (forecast : list Q) (fd : list (Z * Q)) :
  future_df ts forecast = inr fd ->
  length fd = length ts /\ map fst fd = ts /\ map snd fd = forecast.
Proof.
  unfold future_df. destruct (Nat.eqb_spec (length ts) (length forecast));
    [|discriminate].
  intros H. injection H as <-.
  rewrite length_combine. split; [lia|].
  clear - e. revert forecast e.
  induction ts as [|t ts IH]; intros [|q forecast] E; try discriminate;
    [split; reflexivity|].
  injection E as E. destruct (IH forecast E) as (H1 & H2).
  cbn [combine map fst snd]. now rewrite H1, H2.
Qed.

(** C6.  After a non-empty table of candles, when the estimator has
    returned its 8 values, the forecast frame is built, has exactly 8 rows,
    and its k-th timestamp (k = 1..8) is the start of the last candle plus
    15 k minutes, computed by the script from the table alone. *)
Theorem forecast_frame_8_points (rows : list Candle) (c : Candle)
  (forecast : list Q) :
  length forecast = forecast_steps ->
  exists ts fd,
    future_timestamps (Series.iloc_tail 96 (rows ++ [c])) = inr ts
    /\ future_df ts forecast = inr fd
    /\ length fd = 8%nat
    /\ map fst fd
       = map (fun k => (start c + minutes (15 * k))%Z)
             [1; 2; 3; 4; 5; 6; 7; 8]%Z
    /\ map snd fd = forecast.
Proof.
  intros Hlen.
  destruct (iloc_tail_last 96 rows c ltac:(lia)) as (rows' & ->).
  unfold future_timestamps. rewrite index_last_app.
  eexists. cbn [bind Monad_either ret].
  destruct (future_df
              (map (fun i => (start c + minutes (15 * Z.of_nat i))%Z)
                   (seq 1 forecast_steps)) forecast) as [e | fd] eqn:E.
  - exfalso. unfold future_df in E. rewrite length_map, length_seq, Hlen in E.
    rewrite Nat.eqb_refl in E. discriminate.
  - exists fd. split; [reflexivity|]. split; [exact E|].
    destruct (future_df_length _ _ _ E) as (H1 & H2 & H3).
    rewrite H1, H2, length_map, length_seq. repeat split; auto.
Qed.

Lemma forecast_frame_8_points_witness :
  length [7; 7; 8; 8; 9; 9; 8; 7] = forecast_steps
  /\ exists ts fd,
       future_timestamps
         (Series.iloc_tail 96
            ([] ++ [mkCandle 900000 (Num 5) (Num 7) (Num 5) (Num 7)]))
       = inr ts
       /\ future_df ts [7; 7; 8; 8; 9; 9; 8; 7] = inr fd
       /\ length fd = 8%nat
       /\ map fst fd
          = map (fun k =>
                   (start (mkCandle 900000 (Num 5) (Num 7) (Num 5) (Num 7))
                    + minutes (15 * k))%Z)
                [1; 2; 3; 4; 5; 6; 7; 8]%Z
       /\ map snd fd = [7; 7; 8; 8; 9; 9; 8; 7].
Proof.
  split; [reflexivity|].
  apply (forecast_frame_8_points []
           (mkCandle 900000 (Num 5) (Num 7) (Num 5) (Num 7))
           [7; 7; 8; 8; 9; 9; 8; 7]).
  reflexivity.
Defined.

(** ** The run *)

Lemma bind_inr {A B} (c : M A) (k : A -> M B) (v : B) :
  (x <- c ;; k x) = inr v -> exists a, c = inr a /\ k a = inr v.
Proof. destruct c as [e | a]; cbn; [discriminate | eauto]. Qed.

Section RunFacts.

Variable provider : string -> string -> Z -> Z -> M (list PriceSample).
Variable estimator : list f64 -> nat -> M (list Q).
Variable clock : Z -> Z.

(** C2, amended.  When the provider answers with an empty price list,
    the run ends before any chart is drawn, on the exception raised by
    the selection of the latest RSI in the empty table; the exception is
    the same for every coin and does not carry its name. *)
Theorem empty_prices_abort (now : Z) (selected_crypto id : string) :
  crypto_id selected_crypto = inr id ->
  provider id "usd"%string
    (start_timestamp clock now) (end_timestamp clock now)
  = inr [] ->
  run provider estimator clock now selected_crypto
  = inl (IndexError "single positional indexer is out-of-bounds").
Proof.
  intros Hid Hp. unfold run. rewrite Hid. cbn [bind Monad_either].
  rewrite Hp. reflexivity.
Qed.

(** A run that reaches the end has drawn a forecast of 8 rows, stamped
    from the last candle of the table. *)
Lemma run_forecast_line (now : Z) (selected_crypto : string) (d : Dashboard) :
  run provider estimator clock now selected_crypto = inr d ->
  exists prices rows c,
    ohlc prices = rows ++ [c]
    /\ length (forecast_line d) = 8%nat
    /\ map fst (forecast_line d)
       = map (fun k => (start c + minutes (15 * k))%Z)
             [1; 2; 3; 4; 5; 6; 7; 8]%Z.
Proof.
  unfold run. intros H.
  apply bind_inr in H. destruct H as (id & _ & H).
  apply bind_inr in H. destruct H as (prices & _ & H).
  apply bind_inr in H. destruct H as (latest & Hlatest & H).
  apply bind_inr in H. destruct H as (forecast & _ & H).
  apply bind_inr in H. destruct H as (ts & Hts & H).
  apply bind_inr in H. destruct H as (fd & Hfd & H).
  apply bind_inr in H. destruct H as (t & _ & H).
  apply bind_inr in H. destruct H as (r & _ & H).
  injection H as <-. cbn [forecast_line].
  assert (Hne : ohlc prices <> []).
  { intros E. rewrite E in Hlatest. discriminate. }
  destruct (exists_last Hne) as (rows & c & E).
  exists prices, rows, c. split; [exact E|].
  rewrite E in Hts.
  destruct (iloc_tail_last 96 rows c ltac:(lia)) as (rows' & E').
  rewrite E' in Hts. unfold future_timestamps in Hts.
  rewrite index_last_app in Hts. injection Hts as <-.
  destruct (future_df_length _ _ _ Hfd) as (H1 & H2 & _).
  rewrite H1, H2. split; reflexivity.
Qed.

End RunFacts.

Lemma empty_prices_abort_witness :
  crypto_id "Bitcoin" = inr "bitcoin"%string
  /\ fixed_provider [] "bitcoin"%string "usd"%string
       (start_timestamp utc_clock 1700000000000)
       (end_timestamp utc_clock 1700000000000)
     = inr []
  /\ run (fixed_provider []) persistence_forecast utc_clock
       1700000000000 "Bitcoin"
     = inl (IndexError "single positional indexer is out-of-bounds").
Proof.
  split; [reflexivity|]. split; [reflexivity|].
  apply (empty_prices_abort (fixed_provider []) persistence_forecast
           utc_clock 1700000000000 "Bitcoin" "bitcoin"); reflexivity.
Defined.

(** C2, as the spec has it, fails: on an empty price list for Bitcoin the
    run does end on an error, but the error does not name the coin. *)
Lemma empty_prices_error_does_not_name_coin :
  exists e,
    run (fixed_provider []) persistence_forecast utc_clock
      1700000000000 "Bitcoin"
    = inl e
    /\ names_coin "Bitcoin" e = false.
Proof.
  exists (IndexError "single positional indexer is out-of-bounds").
  split; vm_compute; reflexivity.
Qed.

(** ** Aggregation *)

Lemma In_insert (x r : Z * Q) (rows : list (Z * Q)) :
  In x (Resample.insert r rows) <-> x = r \/ In x rows.
Proof.
  induction rows as [|r' rows IH]; simpl.
  - intuition.
  - destruct (fst r <=? fst r')%Z; simpl; [intuition|].
    rewrite IH. intuition.
Qed.

Lemma In_sort_index (x : Z * Q) (rows : list (Z * Q)) :
  In x (Resample.sort_index rows) <-> In x rows.
Proof.
  induction rows as [|r rows IH]; simpl; [reflexivity|].
  rewrite In_insert, IH. intuition.
Qed.

Lemma freq_pos : (0 < Resample.freq)%Z.
Proof. reflexivity. Qed.

Lemma resample_agg_index (rows : list (Z * Q)) :
  map start (Resample.resample_agg rows)
  = Resample.bin_labels (Resample.sort_index rows).
Proof.
  unfold Resample.resample_agg. rewrite map_map. apply map_id.
Qed.

Lemma edges_increasing (first : Z) (n k0 : nat) :
  StronglySorted Z.lt
    (map (fun k => (first + Resample.freq * Z.of_nat k)%Z) (seq k0 n)).
Proof.
  revert k0. induction n as [|n IH]; intros k0; cbn [map seq]; constructor.
  - apply IH.
  - apply Forall_forall. intros b Hb.
    apply in_map_iff in Hb. destruct Hb as (k & <- & Hk).
    apply in_seq in Hk. apply Z.add_lt_mono_l.
    apply Z.mul_lt_mono_pos_l; [exact freq_pos | lia].
Qed.

Lemma bin_labels_increasing (sorted : list (Z * Q)) :
  StronglySorted Z.lt (Resample.bin_labels sorted).
Proof.
  unfold Resample.bin_labels. destruct sorted as [|r0 sorted].
  - constructor.
  - apply edges_increasing.
Qed.

Lemma StronglySorted_map_filter {A B} (R : B -> B -> Prop) (f : A -> B)
  (keep : A -> bool) (s : list A) :
  StronglySorted R (map f s) -> StronglySorted R (map f (filter keep s)).
Proof.
  induction s as [|x s IH]; simpl; intros H; [constructor|].
  apply StronglySorted_inv in H. destruct H as (Hs & Hx).
  destruct (keep x); simpl; [|auto].
  constructor; [auto|].
  apply Forall_forall. intros b Hb.
  apply in_map_iff in Hb. destruct Hb as (y & <- & Hy).
  apply filter_In in Hy. destruct Hy as (Hy & _).
  rewrite Forall_forall in Hx. apply Hx. now apply in_map.
Qed.

Lemma increasing_NoDup (s : list Z) : StronglySorted Z.lt s -> NoDup s.
Proof.
  induction 1 as [|x s _ IH Hx]; constructor; [|exact IH].
  intros Hin. rewrite Forall_forall in Hx. specialize (Hx x Hin). lia.
Qed.

(** A candle that survives [dropna] comes from a bin that holds a row. *)
Lemma complete_agg_has_row (b : Z) (sorted : list (Z * Q)) :
  Resample.complete (Resample.agg b sorted) = true ->
  exists r, In r sorted /\ Resample.floor_bin (fst r) = b.
Proof.
  unfold Resample.complete, Resample.agg. cbn [open high low close].
  destruct (filter (Resample.in_bin b) sorted) as [|r rs] eqn:E.
  - discriminate.
  - intros _. assert (Hr : In r (filter (Resample.in_bin b) sorted))
      by (rewrite E; left; reflexivity).
    apply filter_In in Hr. destruct Hr as (Hr & Hb).
    exists r. split; [exact Hr|]. now apply Z.eqb_eq.
Qed.

Lemma ohlc_start_has_sample (prices : list PriceSample) (b : Z) :
  In b (map start (ohlc prices)) ->
  exists s, In s prices /\ Resample.floor_bin (fst s - hours 3) = b.
Proof.
  unfold ohlc, Resample.dropna, Resample.resample_agg. intros Hb.
  apply in_map_iff in Hb. destruct Hb as (c & <- & Hc).
  apply filter_In in Hc. destruct Hc as (Hc & Hcomplete).
  apply in_map_iff in Hc. destruct Hc as (b & <- & _).
  destruct (complete_agg_has_row _ _ Hcomplete) as (r & Hr & Hbin).
  apply (proj1 (In_sort_index _ _)) in Hr. unfold df in Hr.
  apply in_map_iff in Hr. destruct Hr as (s & <- & Hs).
  exists s. split; [exact Hs | exact Hbin].
Qed.

Lemma insert_sorted (r : Z * Q) (rows : list (Z * Q)) :
  StronglySorted (fun a b => (fst a <= fst b)%Z) rows ->
  StronglySorted (fun a b => (fst a <= fst b)%Z) (Resample.insert r rows).
Proof.
  induction 1 as [|r' rows Hs IH Hr']; simpl.
  - constructor; constructor.
  - destruct (Z.leb_spec (fst r) (fst r')).
    + constructor; [constructor; assumption|].
      constructor; [assumption|].
      rewrite Forall_forall in *. intros y Hy. specialize (Hr' y Hy). lia.
    + constructor; [exact IH|].
      rewrite Forall_forall in *. intros y Hy.
      apply In_insert in Hy. destruct Hy as [-> | Hy]; [lia | auto].
Qed.

Lemma sort_index_sorted (rows : list (Z * Q)) :
  StronglySorted (fun a b => (fst a <= fst b)%Z) (Resample.sort_index rows).
Proof.
  induction rows as [|r rows IH]; simpl; [constructor|].
  now apply insert_sorted.
Qed.

Lemma sorted_last_max (r0 : Z * Q) (rows : list (Z * Q)) (r : Z * Q) :
  StronglySorted (fun a b => (fst a <= fst b)%Z) (r0 :: rows) ->
  In r (r0 :: rows) ->
  (fst r0 <= fst r <= fst (List.last (r0 :: rows) r0))%Z.
Proof.
  revert r0 r. induction rows as [|r1 rows IH]; intros r0 r Hs Hin.
  - destruct Hin as [<- | []]. simpl. lia.
  - apply StronglySorted_inv in Hs. destruct Hs as (Hs & H0).
    rewrite Forall_forall in H0.
    rewrite (last_cons_default r0 r0 (r1 :: rows)).
    rewrite (last_cons_default r1 r0 rows), <- (last_cons_default r1 r1 rows).
    pose proof (H0 r1 (or_introl eq_refl)) as H01.
    destruct Hin as [<- | Hin].
    + destruct (IH r1 r1 Hs (or_introl eq_refl)). lia.
    + destruct (IH r1 r Hs Hin). lia.
Qed.

Lemma floor_bin_mono (t u : Z) :
  (t <= u)%Z -> (Resample.floor_bin t <= Resample.floor_bin u)%Z.
Proof.
  intros H. unfold Resample.floor_bin.
  apply Z.mul_le_mono_nonneg_l; [pose proof freq_pos; lia|].
  apply Z.div_le_mono; [exact freq_pos | exact H].
Qed.

(** The labels cover the bin of every row. *)
Lemma bin_labels_cover (sorted : list (Z * Q)) (r : Z * Q) :
  StronglySorted (fun a b => (fst a <= fst b)%Z) sorted ->
  In r sorted ->
  In (Resample.floor_bin (fst r)) (Resample.bin_labels sorted).
Proof.
  intros Hs Hin. destruct sorted as [|r0 rows]; [contradiction|].
  destruct (sorted_last_max r0 rows r Hs Hin) as (Hlo & Hhi).
  apply floor_bin_mono in Hlo. apply floor_bin_mono in Hhi.
  unfold Resample.bin_labels.
  set (lst := List.last (r0 :: rows) r0) in *.
  unfold Resample.floor_bin in *.
  pose proof freq_pos as Hf.
  set (q0 := (fst r0 / Resample.freq)%Z) in *.
  set (q := (fst r / Resample.freq)%Z) in *.
  set (q1 := (fst lst / Resample.freq)%Z) in *.
  assert (H0 : (q0 <= q)%Z) by nia.
  assert (H1 : (q <= q1)%Z) by nia.
  apply in_map_iff. exists (Z.to_nat (q - q0)).
  split; [rewrite Z2Nat.id by lia; ring|].
  apply in_seq.
  replace (Resample.freq * q1 - Resample.freq * q0)%Z
    with ((q1 - q0) * Resample.freq)%Z by lia.
  rewrite Z.div_mul by lia. lia.
Qed.

Lemma complete_agg (b : Z) (sorted : list (Z * Q)) (r : Z * Q) :
  In r sorted -> Resample.floor_bin (fst r) = b ->
  Resample.complete (Resample.agg b sorted) = true.
Proof.
  intros Hin Hb.
  assert (Hf : In r (filter (Resample.in_bin b) sorted)).
  { apply filter_In. split; [exact Hin|]. now apply Z.eqb_eq. }
  unfold Resample.complete, Resample.agg. cbn [open high low close].
  destruct (filter (Resample.in_bin b) sorted) as [|x xs]; [contradiction|].
  cbn [map Resample.first Resample.max Resample.min].
  unfold Resample.last.
  destruct (rev (snd x :: map snd xs)) eqn:E; [|reflexivity].
  apply (f_equal (@length Q)) in E. rewrite length_rev in E. discriminate.
Qed.

(** A bin in which a sample falls has its candle. *)
Lemma ohlc_sample_has_start (prices : list PriceSample) (s : PriceSample) :
  In s prices ->
  In (Resample.floor_bin (fst s - hours 3)) (map start (ohlc prices)).
Proof.
  intros Hs.
  set (r := ((fst s - hours 3)%Z, snd s)).
  assert (Hr : In r (Resample.sort_index (df prices))).
  { apply In_sort_index. unfold df. apply in_map_iff. exists s. auto. }
  pose proof (bin_labels_cover _ r (sort_index_sorted (df prices)) Hr) as Hb.
  apply in_map_iff.
  exists (Resample.agg (Resample.floor_bin (fst r))
            (Resample.sort_index (df prices))).
  split; [reflexivity|].
  unfold ohlc, Resample.dropna. apply filter_In. split.
  - unfold Resample.resample_agg. apply in_map_iff. eauto.
  - apply (complete_agg _ _ r Hr). reflexivity.
Qed.

(** The candles kept hold finite prices only: the close column is a column
    of finite prices, as the RSI statements take it. *)
Lemma ohlc_closes_finite (prices : list PriceSample) :
  exists closes, close_column (ohlc prices) = prices_column closes.
Proof.
  unfold ohlc, Resample.dropna, Resample.resample_agg, close_column.
  induction (Resample.bin_labels (Resample.sort_index (df prices)))
    as [|b labels (closes & IH)].
  - exists []. reflexivity.
  - cbn [map filter].
    destruct (Resample.complete
                (Resample.agg b (Resample.sort_index (df prices)))) eqn:E;
      [|eauto].
    unfold Resample.complete in E. rewrite !andb_true_iff in E.
    destruct E as (_ & Hc). cbn [map]. rewrite IH.
    unfold Resample.agg in *. cbn [close] in *.
    unfold Resample.last in *.
    destruct (rev _) as [|q qs]; [discriminate|].
    exists (q :: closes). reflexivity.
Qed.

(** C7.  Whatever the price samples are, the starts of the candles are
    strictly increasing, hence pairwise distinct, and a 15-minute bin in
    which no sample falls has no candle. *)
Theorem ohlc_index_increasing (prices : list PriceSample) :
  StronglySorted Z.lt (map start (ohlc prices))
  /\ NoDup (map start (ohlc prices))
  /\ forall b,
       (forall s, In s prices -> Resample.floor_bin (fst s - hours 3) <> b) ->
       ~ In b (map start (ohlc prices)).
Proof.
  assert (Hs : StronglySorted Z.lt (map start (ohlc prices))).
  { unfold ohlc, Resample.dropna. apply StronglySorted_map_filter.
    rewrite resample_agg_index. apply bin_labels_increasing. }
  split; [exact Hs|]. split; [apply increasing_NoDup, Hs|].
  intros b Hempty Hb.
  destruct (ohlc_start_has_sample prices b Hb) as (s & Hin & E).
  exact (Hempty s Hin E).
Qed.

(** Three samples, the third one hour after the first two: two candles,
    and none for the three bins in between. *)
Example ohlc_drops_empty_bins :
  ohlc [(1700000000000%Z, 5); (1700003600000%Z, 6); (1700000000001%Z, 7)]
  = [ mkCandle 1699988400000 (Num 5) (Num 7) (Num 5) (Num 7);
      mkCandle 1699992000000 (Num 6) (Num 6) (Num 6) (Num 6) ].
Proof. vm_compute. reflexivity. Qed.

(* ===================================================================== *)
(** * Further properties of the script *)
(* ===================================================================== *)

(** ** Selection *)

Lemma lookup_inr (k v : string) (d : list (string * string)) :
  lookup k d = inr v -> In (k, v) d.
Proof.
  induction d as [|[k' v'] d IH]; cbn; [discriminate|].
  destruct (String.eqb_spec k k') as [-> | _].
  - intros H. injection H as <-. left. reflexivity.
  - intros H. right. auto.
Qed.

Lemma lookup_inl (k : string) (d : list (string * string)) (e : exn) :
  lookup k d = inl e -> e = KeyError k /\ ~ In k (map fst d).
Proof.
  induction d as [|[k' v'] d IH]; cbn.
  - intros H. injection H as <-. auto.
  - destruct (String.eqb_spec k k') as [-> | Hne]; [discriminate|].
    intros H. destruct (IH H) as (He & Hnot). split; [exact He|].
    intros [E | Hin]; [congruence | contradiction].
Qed.

(** X1.  A name of the menu always has its provider identifier, any other
    name raises [KeyError] with that name, and two different names of the
    menu never share an identifier. *)
Theorem crypto_id_menu (name : string) :
  (In name (map fst cryptocurrencies) ->
   exists id, crypto_id name = inr id /\ In (name, id) cryptocurrencies)
  /\ (~ In name (map fst cryptocurrencies) ->
      crypto_id name = inl (KeyError name))
  /\ (forall other id,
        crypto_id name = inr id -> crypto_id other = inr id -> name = other).
Proof.
  unfold crypto_id. split; [|split].
  - intros Hin. destruct (lookup name cryptocurrencies) as [e | id] eqn:E.
    + apply lookup_inl in E. destruct E as (_ & Hnot). contradiction.
    + exists id. split; [reflexivity|]. now apply lookup_inr.
  - intros Hnot. destruct (lookup name cryptocurrencies) as [e | id] eqn:E.
    + apply lookup_inl in E. destruct E as (-> & _). reflexivity.
    + apply lookup_inr in E. apply (in_map fst) in E. contradiction.
  - intros other id H1 H2. apply lookup_inr in H1. apply lookup_inr in H2.
    cbn in H1, H2.
    repeat (destruct H1 as [H1 | H1]; [injection H1 as <- <-|]);
      try contradiction;
      repeat (destruct H2 as [H2 | H2];
              [injection H2 as <-; try discriminate; try reflexivity|]);
      try contradiction.
Qed.

(** ** Tails *)

Lemma iloc_last_tail {A} (n : nat) (s : list A) :
  (0 < n)%nat ->
  Series.iloc_last (Series.iloc_tail n s) = Series.iloc_last s.
Proof.
  intros Hn. destruct s as [|x s] using rev_ind;
    [now rewrite (iloc_tail_pos n _ Hn)|].
  destruct (iloc_tail_last n s x Hn) as (rows' & ->).
  now rewrite !iloc_last_app.
Qed.

(** ** Candles *)

Lemma Qmin_scan (b p : Q) : Qmin b p = if F.Qltb p b then p else b.
Proof.
  unfold Qmin, GenericMinMax.gmin.
  destruct (F.Qltb p b) eqn:E.
  - apply Qltb_lt in E. now rewrite (proj1 (Qgt_alt b p) E).
  - apply Qltb_ge in E. destruct (b ?= p) eqn:C; try reflexivity.
    pose proof (proj2 (Qgt_alt b p) C). lra.
Qed.

Lemma fold_Qmin_lower (l : list Q) (b : Q) :
  fold_left Qmin l b <= b /\ forall p, In p l -> fold_left Qmin l b <= p.
Proof.
  revert b. induction l as [|x l IH]; intros b; simpl.
  - split; [lra | contradiction].
  - destruct (IH (Qmin b x)) as (Hb & Hl).
    pose proof (Q.le_min_l b x). pose proof (Q.le_min_r b x).
    split; [lra|]. intros p [<- | Hp]; [lra | auto].
Qed.

Lemma fold_Qmax_In (l : list Q) (b : Q) : In (fold_left Qmax l b) (b :: l).
Proof.
  revert b. induction l as [|x l IH]; intros b; simpl; [auto|].
  rewrite Qmax_scan. destruct (F.Qltb b x).
  - right. apply IH.
  - destruct (IH b) as [E | Hin]; [left; exact E | right; right; exact Hin].
Qed.

Lemma fold_Qmin_In (l : list Q) (b : Q) : In (fold_left Qmin l b) (b :: l).
Proof.
  revert b. induction l as [|x l IH]; intros b; simpl; [auto|].
  rewrite Qmin_scan. destruct (F.Qltb x b).
  - right. apply IH.
  - destruct (IH b) as [E | Hin]; [left; exact E | right; right; exact Hin].
Qed.

Lemma filter_sorted {A} (R : A -> A -> Prop) (keep : A -> bool) (s : list A) :
  StronglySorted R s -> StronglySorted R (filter keep s).
Proof.
  intros H. rewrite <- (map_id (filter keep s)).
  apply StronglySorted_map_filter. now rewrite map_id.
Qed.

(** The rows of the bin of a sample, in the frame moved to GMT-3. *)
Lemma In_bin_rows (prices : list PriceSample) (b : Z) (r : Z * Q) :
  In r (filter (Resample.in_bin b) (Resample.sort_index (df prices)))
  <-> exists s, In s prices /\ r = ((fst s - hours 3)%Z, snd s)
                /\ Resample.floor_bin (fst s - hours 3) = b.
Proof.
  rewrite filter_In, In_sort_index. unfold df, Resample.in_bin.
  rewrite in_map_iff, Z.eqb_eq. split.
  - intros ((s & <- & Hs) & Hb). exists s. auto.
  - intros (s & Hs & -> & Hb). split; [exists s; auto | exact Hb].
Qed.

(** A candle of the table is the aggregate of the rows of its bin, and the
    bin holds a row. *)
Lemma ohlc_candle_rows (prices : list PriceSample) (c : Candle) :
  In c (ohlc prices) ->
  exists r rs,
    filter (Resample.in_bin (start c)) (Resample.sort_index (df prices))
    = r :: rs
    /\ c = Resample.agg (start c) (Resample.sort_index (df prices)).
Proof.
  unfold ohlc, Resample.dropna, Resample.resample_agg. intros Hc.
  apply filter_In in Hc. destruct Hc as (Hc & Hcomplete).
  apply in_map_iff in Hc. destruct Hc as (b & <- & _).
  cbn [start Resample.agg].
  destruct (complete_agg_has_row _ _ Hcomplete) as (r & Hr & Hb).
  destruct (filter (Resample.in_bin b) (Resample.sort_index (df prices)))
    as [|r' rs] eqn:E.
  - assert (Hin : In r (filter (Resample.in_bin b)
                          (Resample.sort_index (df prices)))).
    { apply filter_In. split; [exact Hr|]. now apply Z.eqb_eq. }
    rewrite E in Hin. contradiction.
  - exists r', rs. split; reflexivity.
Qed.

(** X3.  The table has a candle for exactly the 15-minute bins in which a
    sample falls. *)
Theorem candle_iff_sample (prices : list PriceSample) (b : Z) :
  In b (map start (ohlc prices))
  <-> exists s, In s prices /\ Resample.floor_bin (fst s - hours 3) = b.
Proof.
  split.
  - apply ohlc_start_has_sample.
  - intros (s & Hs & <-). now apply ohlc_sample_has_start.
Qed.

(** X4.  In every candle the four prices are finite, [low <= open <= high]
    and [low <= close <= high]; [high] and [low] are prices of samples of
    the bin and bound the price of every sample of the bin. *)
Theorem candle_high_low (prices : list PriceSample) (c : Candle) :
  In c (ohlc prices) ->
  exists o h l cl,
    open c = Num o /\ high c = Num h /\ low c = Num l /\ close c = Num cl
    /\ l <= o <= h /\ l <= cl <= h
    /\ (forall s, In s prices ->
                  Resample.floor_bin (fst s - hours 3) = start c ->
                  l <= snd s <= h)
    /\ (exists s, In s prices
                  /\ Resample.floor_bin (fst s - hours 3) = start c
                  /\ snd s = h)
    /\ (exists s, In s prices
                  /\ Resample.floor_bin (fst s - hours 3) = start c
                  /\ snd s = l).
Proof.
  intros Hc. destruct (ohlc_candle_rows prices c Hc) as (r & rs & E & Hagg).
  pose proof (In_bin_rows prices (start c)) as Hrows. rewrite E in Hrows.
  set (ps := map snd rs).
  destruct (fold_Qmax_upper ps (snd r)) as (Hmax0 & Hmax).
  destruct (fold_Qmin_lower ps (snd r)) as (Hmin0 & Hmin).
  assert (Hprice : forall p, In p (snd r :: ps) <->
            exists s, In s prices
                      /\ Resample.floor_bin (fst s - hours 3) = start c
                      /\ snd s = p).
  { intros p. change (snd r :: ps) with (map snd (r :: rs)).
    rewrite in_map_iff. split.
    - intros (x & <- & Hx). apply Hrows in Hx.
      destruct Hx as (s & Hs & -> & Hb). exists s. auto.
    - intros (s & Hs & Hb & <-).
      exists ((fst s - hours 3)%Z, snd s). split; [reflexivity|].
      apply Hrows. exists s. auto. }
  assert (Hlast : exists cl, Resample.last (snd r :: ps) = Num cl
                             /\ In cl (snd r :: ps)).
  { unfold Resample.last. destruct (rev (snd r :: ps)) as [|q qs] eqn:Er.
    - apply (f_equal (@length Q)) in Er. rewrite length_rev in Er.
      discriminate.
    - exists q. split; [reflexivity|]. apply in_rev. rewrite Er. now left. }
  destruct Hlast as (cl & Hcl & Hclin).
  exists (snd r), (fold_left Qmax ps (snd r)), (fold_left Qmin ps (snd r)), cl.
  rewrite Hagg. unfold Resample.agg. rewrite E.
  cbn [open high low close map Resample.first Resample.max Resample.min].
  fold ps. rewrite Hcl.
  assert (Hbound : forall p, In p (snd r :: ps) ->
            fold_left Qmin ps (snd r) <= p <= fold_left Qmax ps (snd r)).
  { intros p [<- | Hp]; [lra | split; auto]. }
  do 4 (split; [reflexivity|]).
  split; [apply Hbound; now left|]. split; [apply Hbound, Hclin|].
  split; [intros s Hs Hb; apply Hbound, Hprice; exists s; auto|].
  split; [apply Hprice, fold_Qmax_In | apply Hprice, fold_Qmin_In].
Qed.

Lemma candle_high_low_witness :
  In first_candle_of_three (ohlc three_samples)
  /\ exists o h l cl,
       open first_candle_of_three = Num o
       /\ high first_candle_of_three = Num h
       /\ low first_candle_of_three = Num l
       /\ close first_candle_of_three = Num cl
       /\ l <= o <= h /\ l <= cl <= h
       /\ (forall s, In s three_samples ->
                     Resample.floor_bin (fst s - hours 3)
                     = start first_candle_of_three ->
                     l <= snd s <= h)
       /\ (exists s, In s three_samples
                     /\ Resample.floor_bin (fst s - hours 3)
                        = start first_candle_of_three
                     /\ snd s = h)
       /\ (exists s, In s three_samples
                     /\ Resample.floor_bin (fst s - hours 3)
                        = start first_candle_of_three
                     /\ snd s = l).
Proof.
  assert (H : In first_candle_of_three (ohlc three_samples))
    by (vm_compute; left; reflexivity).
  split; [exact H|].
  apply (candle_high_low three_samples first_candle_of_three H).
Defined.

Lemma last_row_price (r z : Z * Q) (init : list (Z * Q)) :
  Resample.last (map snd (init ++ [z])) = Num (snd z).
Proof.
  unfold Resample.last. rewrite map_app, rev_app_distr. reflexivity.
Qed.

(** X5.  The open of a candle is the price of the earliest sample of its
    bin and the close the price of the latest one, whatever the order in
    which the provider listed the samples. *)
Theorem candle_open_close (prices : list PriceSample) (c : Candle) :
  In c (ohlc prices) ->
  exists s_open s_close,
    In s_open prices /\ In s_close prices
    /\ Resample.floor_bin (fst s_open - hours 3) = start c
    /\ Resample.floor_bin (fst s_close - hours 3) = start c
    /\ open c = Num (snd s_open)
    /\ close c = Num (snd s_close)
    /\ forall s, In s prices ->
                 Resample.floor_bin (fst s - hours 3) = start c ->
                 (fst s_open <= fst s <= fst s_close)%Z.
Proof.
  intros Hc. destruct (ohlc_candle_rows prices c Hc) as (r & rs & E & Hagg).
  pose proof (In_bin_rows prices (start c)) as Hrows. rewrite E in Hrows.
  assert (Hsorted : StronglySorted (fun a b => (fst a <= fst b)%Z) (r :: rs)).
  { rewrite <- E. apply filter_sorted, sort_index_sorted. }
  destruct (exists_last (l := r :: rs)) as (init & z & Ez); [discriminate|].
  assert (Hz : List.last (r :: rs) r = z) by (rewrite Ez; apply last_last).
  destruct (proj1 (Hrows r) (or_introl eq_refl)) as (so & Hso & Er & Hbo).
  assert (Hzin : In z (r :: rs)).
  { rewrite Ez. apply in_or_app. right. now left. }
  destruct (proj1 (Hrows z) Hzin) as (sc & Hsc & Ec & Hbc).
  exists so, sc. do 4 (split; [assumption|]).
  rewrite Hagg. unfold Resample.agg. rewrite E.
  cbn [open close]. split; [rewrite Er; reflexivity|].
  split; [rewrite Ez, (last_row_price r), Ec; reflexivity|].
  intros s Hs Hb.
  assert (Hin : In ((fst s - hours 3)%Z, snd s) (r :: rs)).
  { apply Hrows. exists s. auto. }
  pose proof (sorted_last_max r rs _ Hsorted Hin) as Hle.
  rewrite Hz, Er, Ec in Hle. cbn [fst] in Hle. lia.
Qed.

Lemma candle_open_close_witness :
  In first_candle_of_three (ohlc three_samples)
  /\ exists s_open s_close,
       In s_open three_samples /\ In s_close three_samples
       /\ Resample.floor_bin (fst s_open - hours 3)
          = start first_candle_of_three
       /\ Resample.floor_bin (fst s_close - hours 3)
          = start first_candle_of_three
       /\ open first_candle_of_three = Num (snd s_open)
       /\ close first_candle_of_three = Num (snd s_close)
       /\ forall s, In s three_samples ->
                    Resample.floor_bin (fst s - hours 3)
                    = start first_candle_of_three ->
                    (fst s_open <= fst s <= fst s_close)%Z.
Proof.
  assert (H : In first_candle_of_three (ohlc three_samples))
    by (vm_compute; left; reflexivity).
  split; [exact H|].
  apply (candle_open_close three_samples first_candle_of_three H).
Defined.

Lemma floor_bin_bounds (t : Z) :
  (Resample.floor_bin t <= t < Resample.floor_bin t + minutes 15)%Z.
Proof.
  unfold Resample.floor_bin. change (minutes 15) with Resample.freq.
  pose proof freq_pos as Hf.
  pose proof (Z.mul_div_le t Resample.freq Hf).
  pose proof (Z.mul_succ_div_gt t Resample.freq Hf). lia.
Qed.

Lemma floor_bin_unique (q t : Z) :
  (Resample.freq * q <= t < Resample.freq * q + minutes 15)%Z ->
  Resample.floor_bin t = (Resample.freq * q)%Z.
Proof.
  change (minutes 15) with Resample.freq. intros H.
  unfold Resample.floor_bin. f_equal. symmetry.
  apply (Z.div_unique_pos t Resample.freq q (t - Resample.freq * q)); lia.
Qed.

Lemma ohlc_starts_sorted (prices : list PriceSample) :
  StronglySorted Z.lt (map start (ohlc prices)).
Proof.
  unfold ohlc, Resample.dropna. apply StronglySorted_map_filter.
  rewrite resample_agg_index. apply bin_labels_increasing.
Qed.

Lemma ohlc_start_aligned (prices : list PriceSample) (c : Candle) :
  In c (ohlc prices) -> exists q, start c = (Resample.freq * q)%Z.
Proof.
  intros Hc. apply (in_map start) in Hc.
  destruct (ohlc_start_has_sample _ _ Hc) as (s & _ & <-).
  eexists. reflexivity.
Qed.

(** X6.  Every candle starts on a 15-minute boundary of the GMT-3 clock,
    and two candles with different starts are at least 15 minutes apart:
    their intervals do not overlap. *)
Theorem candle_alignment (prices : list PriceSample) (c1 c2 : Candle) :
  In c1 (ohlc prices) -> In c2 (ohlc prices) ->
  (start c1 mod minutes 15 = 0)%Z
  /\ ((start c1 < start c2)%Z -> (start c1 + minutes 15 <= start c2)%Z).
Proof.
  intros H1 H2.
  destruct (ohlc_start_aligned prices c1 H1) as (q1 & ->).
  destruct (ohlc_start_aligned prices c2 H2) as (q2 & ->).
  change (minutes 15) with Resample.freq. pose proof freq_pos as Hf.
  split.
  - rewrite Z.mul_comm. apply Z.mod_mul. lia.
  - intros Hlt. assert (q1 < q2)%Z by nia. nia.
Qed.

Lemma candle_alignment_witness :
  In first_candle_of_three (ohlc three_samples)
  /\ In second_candle_of_three (ohlc three_samples)
  /\ (start first_candle_of_three mod minutes 15 = 0)%Z
  /\ ((start first_candle_of_three < start second_candle_of_three)%Z ->
      (start first_candle_of_three + minutes 15
       <= start second_candle_of_three)%Z).
Proof.
  assert (H1 : In first_candle_of_three (ohlc three_samples))
    by (vm_compute; left; reflexivity).
  assert (H2 : In second_candle_of_three (ohlc three_samples))
    by (vm_compute; right; left; reflexivity).
  split; [exact H1|]. split; [exact H2|].
  apply (candle_alignment three_samples _ _ H1 H2).
Defined.

(** X7.  Every sample belongs to exactly one candle: the one whose
    15-minute interval holds the sample's GMT-3 time. *)
Theorem sample_in_one_candle (prices : list PriceSample) (s : PriceSample) :
  In s prices ->
  exists c,
    In c (ohlc prices)
    /\ (start c <= fst s - hours 3 < start c + minutes 15)%Z
    /\ forall c',
         In c' (ohlc prices) ->
         (start c' <= fst s - hours 3 < start c' + minutes 15)%Z ->
         c' = c.
Proof.
  intros Hs. pose proof (ohlc_sample_has_start prices s Hs) as Hb.
  apply in_map_iff in Hb. destruct Hb as (c & Hstart & Hc).
  exists c. split; [exact Hc|]. split.
  - rewrite Hstart. apply floor_bin_bounds.
  - intros c' Hc' Hin.
    destruct (ohlc_start_aligned prices c' Hc') as (q & Eq).
    rewrite Eq in Hin. apply floor_bin_unique in Hin.
    assert (Es : start c' = start c) by congruence.
    destruct (ohlc_candle_rows prices c Hc) as (_ & _ & _ & ->).
    destruct (ohlc_candle_rows prices c' Hc') as (_ & _ & _ & ->).
    cbn [start Resample.agg] in Es |- *. now rewrite Es.
Qed.

Lemma sample_in_one_candle_witness :
  In (1700003600000%Z, 6) three_samples
  /\ exists c,
       In c (ohlc three_samples)
       /\ (start c <= 1700003600000 - hours 3 < start c + minutes 15)%Z
       /\ forall c',
            In c' (ohlc three_samples) ->
            (start c' <= 1700003600000 - hours 3 < start c' + minutes 15)%Z ->
            c' = c.
Proof.
  assert (H : In (1700003600000%Z, 6) three_samples)
    by (right; left; reflexivity).
  split; [exact H|].
  apply (sample_in_one_candle three_samples (1700003600000%Z, 6) H).
Defined.

(** X8.  There are never more candles than samples, and the table is empty
    only when the provider returned no sample. *)
Theorem candle_count (prices : list PriceSample) :
  (length (ohlc prices) <= length prices)%nat
  /\ (ohlc prices = [] <-> prices = []).
Proof.
  split.
  - rewrite <- (length_map start (ohlc prices)).
    rewrite <- (length_map
                  (fun s : PriceSample => Resample.floor_bin (fst s - hours 3))
                  prices).
    apply NoDup_incl_length.
    + apply increasing_NoDup, ohlc_starts_sorted.
    + intros b Hb. apply ohlc_start_has_sample in Hb.
      destruct Hb as (s & Hs & <-).
      apply (in_map (fun s : PriceSample =>
                       Resample.floor_bin (fst s - hours 3))), Hs.
  - split.
    + intros E. destruct prices as [|s prices]; [reflexivity|].
      pose proof (ohlc_sample_has_start (s :: prices) s (or_introl eq_refl))
        as Hin.
      rewrite E in Hin. contradiction.
    + intros ->. reflexivity.
Qed.

(** X9.  The move to GMT-3 only relabels the bins: 3 hours are 12 whole
    bins, so two samples share a candle exactly when their provider
    timestamps share a 15-minute bin. *)
Theorem gmt3_keeps_bins (t u : Z) :
  Resample.floor_bin (t - hours 3) = (Resample.floor_bin t - hours 3)%Z
  /\ (Resample.floor_bin (t - hours 3) = Resample.floor_bin (u - hours 3)
      <-> Resample.floor_bin t = Resample.floor_bin u).
Proof.
  assert (H : forall x, Resample.floor_bin (x - hours 3)
                        = (Resample.floor_bin x - hours 3)%Z).
  { intros x. unfold Resample.floor_bin.
    change (hours 3) with (12 * Resample.freq)%Z.
    replace (x - 12 * Resample.freq)%Z with (x + (-12) * Resample.freq)%Z
      by ring.
    rewrite Z.div_add by (pose proof freq_pos; lia). ring. }
  split; [apply H|]. rewrite !H. lia.
Qed.

(** ** RSI of one-sided and flat markets *)

Lemma zero_nonneg (x : f64) : zero_cell x -> nonneg x.
Proof. intros (q & -> & Hq). exists q. split; [reflexivity | lra]. Qed.

Lemma pos_nonneg (x : f64) : pos_cell x -> nonneg x.
Proof. intros (q & -> & Hq). exists q. split; [reflexivity | lra]. Qed.

Lemma mean_num (s : list f64) :
  Forall nonneg s -> s <> [] ->
  exists t, fold_left F.add s (Num 0) = Num t
            /\ Series.mean s = Num (t / inject_Z (Z.of_nat (length s))).
Proof.
  intros H Hne. unfold Series.mean. rewrite (nonneg_notna s H).
  destruct s as [|x s]; [contradiction|].
  destruct (nonneg_fold_add (x :: s) H 0 ltac:(lra)) as (t & Ht & _).
  exists t. split; [exact Ht|].
  unfold Series.sum. rewrite Ht. unfold F.of_nat. cbn [F.div].
  pose proof (of_nat_pos (length s)) as Hn. cbn [length].
  destruct (Qeq_bool (inject_Z (Z.of_nat (S (length s)))) 0) eqn:E;
    [|reflexivity].
  apply Qeq_bool_iff in E. lra.
Qed.

Lemma zero_fold_add (s : list f64) :
  Forall zero_cell s ->
  forall a t, fold_left F.add s (Num a) = Num t -> t == a.
Proof.
  induction 1 as [|x s (q & -> & Hq) _ IH]; intros a t; cbn.
  - intros E. injection E as <-. reflexivity.
  - intros E. rewrite (IH _ _ E). lra.
Qed.



Lemma mean_zero (s : list f64) :
  Forall zero_cell s -> s <> [] -> zero_cell (Series.mean s).
Proof.
  intros H Hne.
  assert (Hn : Forall nonneg s)
    by (eapply Forall_impl; [apply zero_nonneg | exact H]).
  destruct (mean_num s Hn Hne) as (t & Ht & ->).
  exists (t / inject_Z (Z.of_nat (length s))). split; [reflexivity|].
  rewrite (zero_fold_add s H _ _ Ht). unfold Qdiv. ring.
Qed.



(** A full window of a rolling mean: all cells zero, or one positive cell
    among cells that are not negative. *)
Lemma rolling_zero (w i : nat) (s : list f64) :
  Forall zero_cell s -> (0 < w <= S i)%nat -> (i < length s)%nat ->
  zero_cell (Series.window_mean w (Series.window_at w i s)).
Proof.
  intros H Hw Hi.
  assert (Hwin : Forall zero_cell (Series.window_at w i s))
    by (apply Forall_skipn', Forall_firstn', H).
  assert (Hn : Forall nonneg (Series.window_at w i s))
    by (eapply Forall_impl; [apply zero_nonneg | exact Hwin]).
  pose proof (window_at_length w i s Hi) as Hlen.
  unfold Series.window_mean. rewrite (nonneg_notna _ Hn), Hlen.
  destruct (Nat.ltb_spec (Nat.min (S i) w) w); [lia|].
  apply mean_zero; [exact Hwin|].
  intros E. rewrite E in Hlen. cbn [length] in Hlen. lia.
Qed.


(** The RSI formula on the two averages, in closed form. *)
Lemma rsi_formula_closed (a b : Q) :
  0 <= a -> 0 <= b ->
  ((a == 0 /\ b == 0) ->
   (Num 100 - Num 100 / (Num 1 + Num a / Num b))%f64 = NaN)
  /\ (~ (a == 0 /\ b == 0) ->
      exists v, (Num 100 - Num 100 / (Num 1 + Num a / Num b))%f64 = Num v
                /\ v == 100 * a / (a + b)).
Proof.
  intros Ha Hb. split.
  - intros (Ea & Eb). destruct (rs_zero_loss a b Ha Eb) as (Hnan & _).
    now rewrite (Hnan Ea).
  - intros Hnz. destruct (Qlt_le_dec 0 b) as [Hpos | Hle].
    + assert (Hq : 0 <= a / b) by (apply Qle_shift_div_l; [exact Hpos | lra]).
      cbn [F.div]. destruct (Qeq_bool b 0) eqn:E.
      { apply Qeq_bool_iff in E. lra. }
      cbn [F.add F.div]. destruct (Qeq_bool (1 + a / b) 0) eqn:E1.
      { apply Qeq_bool_iff in E1. lra. }
      cbn [F.sub F.opp F.add]. eexists. split; [reflexivity|].
      field. split; lra.
    + assert (Eb : b == 0) by lra.
      assert (Hap : 0 < a).
      { destruct (Qlt_le_dec 0 a) as [H | H]; [exact H|].
        exfalso. apply Hnz. split; lra. }
      destruct (rs_zero_loss a b Ha Eb) as (_ & Hinf).
      rewrite (Hinf Hap). exists (100 + - 0). split; [reflexivity|].
      rewrite Eb. field. lra.
Qed.

(** X10.  The first 13 cells of the RSI column are NaN, whatever the
    closes are: the rolling window of 14 is not full before the 14th
    candle. *)
Theorem rsi_first_13_nan (closes : list Q) (i : nat) :
  (i < length closes)%nat -> (i < 13)%nat ->
  nth_error (rsi (prices_column closes)) i = Some NaN.
Proof.
  intros Hi H13.
  destruct (rsi_cell closes i Hi) as (g & l & _ & _ & _ & Hr & Hc).
  destruct Hc as [(_ & -> & ->) | (Hge & _)]; [exact Hr|].
  unfold window_length in Hge. lia.
Qed.

Lemma rsi_first_13_nan_witness :
  (2 < length [10; 11; 9; 12])%nat /\ (2 < 13)%nat
  /\ nth_error (rsi (prices_column [10; 11; 9; 12])) 2 = Some NaN.
Proof.
  split; [simpl; lia|]. split; [lia|].
  apply (rsi_first_13_nan [10; 11; 9; 12] 2); simpl; lia.
Defined.

Lemma diff_from_sorted (R : Q -> Q -> Prop) (P : f64 -> Prop) :
  (forall p x, R p x -> P (Num x - Num p)%f64) ->
  forall t p, StronglySorted R (p :: t) ->
              Forall P (Series.diff_from (Num p) (prices_column t)).
Proof.
  intros HP. induction t as [|x t IH]; intros p Hs; cbn; constructor.
  - apply HP. apply StronglySorted_inv in Hs. destruct Hs as (_ & Hp).
    apply Forall_inv in Hp. exact Hp.
  - apply IH. apply StronglySorted_inv in Hs. tauto.
Qed.


Lemma where_gt_zero (x : f64) :
  x = NaN \/ zero_cell x \/ neg_cell x ->
  zero_cell (if (x >? Num 0)%f64 then x else Num 0).
Proof.
  intros [-> | [(q & -> & Hq) | (q & -> & Hq)]]; unfold F.gtb; cbn;
    try (rewrite (proj2 (Qltb_ge 0 q)) by lra);
    exists 0; split; reflexivity.
Qed.


Lemma where_lt_zero (x : f64) :
  x = NaN \/ zero_cell x \/ pos_cell x ->
  zero_cell (- (if (x <? Num 0)%f64 then x else Num 0))%f64.
Proof.
  intros [-> | [(q & -> & Hq) | (q & -> & Hq)]]; cbn;
    try (rewrite (proj2 (Qltb_ge q 0)) by lra);
    exists (- 0); split; reflexivity.
Qed.

(** The cells of [gain] and [loss] as means of their windows. *)
Lemma gain_loss_nth (closes : list Q) (i : nat) :
  (i < length closes)%nat ->
  nth_error (gain (prices_column closes)) i
  = Some (Series.window_mean window_length
            (Series.window_at window_length i
               (Series.where_ (fun d => d >? Num 0)%f64 (Num 0)
                  (delta (prices_column closes)))))
  /\ nth_error (loss (prices_column closes)) i
     = Some (Series.window_mean window_length
               (Series.window_at window_length i
                  (Series.neg
                     (Series.where_ (fun d => d <? Num 0)%f64 (Num 0)
                        (delta (prices_column closes)))))).
Proof.
  intros Hi.
  pose proof (delta_length (prices_column closes)) as Hlen.
  unfold prices_column in Hlen at 2. rewrite length_map in Hlen.
  unfold gain, loss. split; apply rolling_mean_nth;
    unfold Series.neg, Series.where_; rewrite ?length_map, Hlen; exact Hi.
Qed.

(** The cells of the gains and of the losses, from the sign of the
    differences after the first one. *)
Lemma one_sided_cells (x : Q) (t : list Q) (PG PL : f64 -> Prop) :
  (forall d, In d (Series.diff_from (Num x) (prices_column t)) ->
             PG (if (d >? Num 0)%f64 then d else Num 0)
             /\ PL (- (if (d <? Num 0)%f64 then d else Num 0))%f64) ->
  forall i c,
    (nth_error (Series.where_ (fun d => d >? Num 0)%f64 (Num 0)
                  (delta (prices_column (x :: t)))) (S i) = Some c -> PG c)
    /\ (nth_error (Series.neg
                     (Series.where_ (fun d => d <? Num 0)%f64 (Num 0)
                        (delta (prices_column (x :: t))))) (S i) = Some c ->
        PL c).
Proof.
  intros H i c.
  change (delta (prices_column (x :: t)))
    with (NaN :: Series.diff_from (Num x) (prices_column t)).
  unfold Series.neg, Series.where_. cbn [map nth_error].
  rewrite map_map, !nth_error_map.
  destruct (nth_error (Series.diff_from (Num x) (prices_column t)) i)
    as [d|] eqn:E; cbn; [|split; discriminate].
  apply nth_error_In in E. destruct (H d E) as (HG & HL).
  split; intros Hc; injection Hc as <-; assumption.
Qed.

Lemma Forall_head_rest {A} (P : A -> Prop) (s : list A) :
  (forall c, nth_error s 0 = Some c -> P c) ->
  (forall i c, nth_error s (S i) = Some c -> P c) ->
  Forall P s.
Proof.
  intros H0 HS. apply Forall_forall. intros c Hc.
  destruct (In_nth_error _ _ Hc) as ([|i] & Hi); eauto.
Qed.

Lemma gains_head (x : Q) (t : list Q) (c : f64) :
  nth_error (Series.where_ (fun d => d >? Num 0)%f64 (Num 0)
               (delta (prices_column (x :: t)))) 0 = Some c ->
  zero_cell c.
Proof.
  cbn. intros H. injection H as <-. exists 0. split; reflexivity.
Qed.

Lemma losses_head (x : Q) (t : list Q) (c : f64) :
  nth_error (Series.neg
               (Series.where_ (fun d => d <? Num 0)%f64 (Num 0)
                  (delta (prices_column (x :: t))))) 0 = Some c ->
  zero_cell c.
Proof.
  cbn. intros H. injection H as <-. exists (- 0). split; reflexivity.
Qed.






(** X14.  While the closes have not moved at all, no RSI cell is defined:
    both averages are 0 and the column is NaN throughout, however long the
    table is. *)
Theorem flat_rsi_is_nan (closes : list Q) :
  flat closes -> Forall undefined (rsi (prices_column closes)).
Proof.
  intros Hf. apply Forall_forall. intros c Hc.
  destruct (In_nth_error _ _ Hc) as (i & Hc'). clear Hc.
  assert (Hi : (i < length closes)%nat).
  { rewrite <- (length_map Num closes). fold (prices_column closes).
    rewrite <- rsi_length. apply nth_error_Some. congruence. }
  destruct (Nat.lt_ge_cases i 13) as [Hlt | Hge].
  { destruct (rsi_cell closes i Hi) as (g & l & _ & _ & _ & Hr & Hcase).
    destruct Hcase as [(_ & -> & ->) | (Hw & _)].
    - rewrite Hr in Hc'. injection Hc' as <-. reflexivity.
    - unfold window_length in Hw. lia. }
  destruct closes as [|x t]; [cbn in Hi; lia|].
  assert (Hcells := one_sided_cells x t zero_cell zero_cell).
  assert (HD : forall d,
             In d (Series.diff_from (Num x) (prices_column t)) ->
             zero_cell (if (d >? Num 0)%f64 then d else Num 0)
             /\ zero_cell (- (if (d <? Num 0)%f64 then d else Num 0))%f64).
  { pose proof (diff_from_sorted Qeq zero_cell) as HP.
    assert (Hall : Forall zero_cell
                     (Series.diff_from (Num x) (prices_column t))).
    { apply HP; [|exact Hf]. intros p y E. exists (y + - p).
      split; [reflexivity | lra]. }
    rewrite Forall_forall in Hall. intros d Hd. split.
    - apply where_gt_zero; auto.
    - apply where_lt_zero; auto. }
  specialize (Hcells HD).
  destruct (gain_loss_nth (x :: t) i Hi) as (Hg & Hl).
  assert (Hgain := rolling_zero window_length i
                     (Series.where_ (fun d => d >? Num 0)%f64 (Num 0)
                        (delta (prices_column (x :: t))))
                     (Forall_head_rest _ _ (gains_head x t)
                        (fun k c => proj1 (Hcells k c)))
                     ltac:(unfold window_length; lia)).
  assert (Hloss := rolling_zero window_length i
                     (Series.neg
                        (Series.where_ (fun d => d <? Num 0)%f64 (Num 0)
                           (delta (prices_column (x :: t)))))
                     (Forall_head_rest _ _ (losses_head x t)
                        (fun k c => proj2 (Hcells k c)))
                     ltac:(unfold window_length; lia)).
  destruct Hgain as (a & Ea & Ha).
  { unfold Series.where_. rewrite length_map, delta_length.
    unfold prices_column. now rewrite length_map. }
  destruct Hloss as (b & Eb & Hb).
  { unfold Series.neg, Series.where_. rewrite !length_map, delta_length.
    unfold prices_column. now rewrite length_map. }
  unfold rsi, rs in Hc'.
  rewrite nth_error_map, map2_nth, Hg, Hl, Ea, Eb in Hc'.
  cbn [option_map] in Hc'.
  destruct (rsi_formula_closed a b ltac:(lra) ltac:(lra)) as (Hnan & _).
  rewrite Hnan in Hc' by auto. injection Hc' as <-. reflexivity.
Qed.

Lemma flat_rsi_is_nan_witness :
  flat closes_flat_15
  /\ Forall undefined (rsi (prices_column closes_flat_15)).
Proof.
  assert (H : flat closes_flat_15).
  { unfold flat, closes_flat_15.
    repeat (constructor; [|repeat constructor]). constructor. }
  split; [exact H|].
  apply (flat_rsi_is_nan closes_flat_15 H).
Defined.

(** ** The recommendation never raises *)

(** X17.  The recommendation never raises, whatever the forecast and the
    moving average are (NaN and infinities included), and a forecast of
    fewer than 2 points is answered with RETER. *)
Theorem recommendation_never_raises (forecast : list f64) (ma : f64) :
  (exists r, recommendation forecast ma = inr r)
  /\ ((length forecast < 2)%nat -> recommendation forecast ma = inr RETER).
Proof.
  split; [apply recommendation_total|].
  intros Hlen.
  destruct forecast as [|x [|y t]]; [reflexivity| |cbn in Hlen; lia].
  rewrite (recommendation_eq [x] ma x eq_refl).
  unfold trend, Series.diff. cbn. reflexivity.
Qed.

Lemma recommendation_never_raises_witness :
  (length [PosInf] < 2)%nat /\ recommendation [PosInf] NaN = inr RETER.
Proof.
  split; [simpl; lia|].
  apply (recommendation_never_raises [PosInf] NaN). simpl; lia.
Defined.

(** ** Forecast timestamps and the combined frame *)

Lemma StronglySorted_app {A} (R : A -> A -> Prop) (s t : list A) :
  StronglySorted R s -> StronglySorted R t ->
  (forall a b, In a s -> In b t -> R a b) ->
  StronglySorted R (s ++ t).
Proof.
  intros Hs Ht H. induction Hs as [|x s Hs IH Hx]; cbn; [exact Ht|].
  constructor.
  - apply IH. intros a b Ha. apply H. now right.
  - apply Forall_app. split; [exact Hx|].
    apply Forall_forall. intros b Hb. apply H; [now left | exact Hb].
Qed.

Lemma StronglySorted_skipn {A} (R : A -> A -> Prop) (n : nat) (s : list A) :
  StronglySorted R s -> StronglySorted R (skipn n s).
Proof.
  intros H. revert n. induction H as [|x s Hs IH Hx]; intros [|n]; cbn;
    try constructor; auto.
Qed.

Lemma increasing_last (s : list Z) (x a : Z) :
  StronglySorted Z.lt (s ++ [x]) -> In a (s ++ [x]) -> (a <= x)%Z.
Proof.
  induction s as [|y s IH]; cbn; intros Hs Ha.
  - destruct Ha as [<- | []]. lia.
  - apply StronglySorted_inv in Hs. destruct Hs as (Hs & Hy).
    destruct Ha as [-> | Ha]; [|auto].
    rewrite Forall_forall in Hy.
    assert (a < x)%Z by (apply Hy, in_or_app; right; now left). lia.
Qed.

Lemma ohlc_nonempty (prices : list PriceSample) :
  prices <> [] -> exists rows c, ohlc prices = rows ++ [c].
Proof.
  intros Hne. destruct prices as [|s prices]; [contradiction|].
  pose proof (ohlc_sample_has_start (s :: prices) s (or_introl eq_refl)) as H.
  destruct (ohlc (s :: prices)) as [|c0 rows0] eqn:E; [contradiction|].
  destruct (exists_last (l := c0 :: rows0)) as (rows & c & ->);
    [discriminate|].
  eauto.
Qed.

Lemma future_timestamps_eq (rows : list Candle) (c : Candle) :
  future_timestamps (Series.iloc_tail 96 (rows ++ [c]))
  = inr (map (fun i => (start c + minutes (15 * Z.of_nat i))%Z)
             (seq 1 forecast_steps)).
Proof.
  destruct (iloc_tail_last 96 rows c ltac:(lia)) as (rows' & ->).
  unfold future_timestamps. now rewrite index_last_app.
Qed.

Lemma future_timestamps_inv (prices : list PriceSample) (ts : list Z) :
  future_timestamps (Series.iloc_tail 96 (ohlc prices)) = inr ts ->
  exists rows c,
    ohlc prices = rows ++ [c]
    /\ ts = map (fun i => (start c + minutes (15 * Z.of_nat i))%Z)
                (seq 1 forecast_steps).
Proof.
  intros Hts.
  assert (Hne : ohlc prices <> []).
  { intros E. rewrite E in Hts. discriminate. }
  destruct (exists_last Hne) as (rows & c & E).
  exists rows, c. split; [exact E|].
  rewrite E, future_timestamps_eq in Hts. congruence.
Qed.

Lemma future_timestamps_sorted (prices : list PriceSample) (ts : list Z) :
  future_timestamps (Series.iloc_tail 96 (ohlc prices)) = inr ts ->
  StronglySorted Z.lt ts
  /\ forall c t, In c (ohlc prices) -> In t ts -> (start c < t)%Z.
Proof.
  intros Hts. destruct (future_timestamps_inv _ _ Hts) as (rows & c & E & ->).
  split.
  - cbn. unfold minutes.
    repeat (constructor; [|repeat constructor]); try lia. constructor.
  - pose proof (ohlc_starts_sorted prices) as Hs.
    rewrite E, map_app in Hs. cbn [map] in Hs.
    intros c' t Hc' Ht. rewrite E in Hc'.
    apply (in_map start) in Hc'. rewrite map_app in Hc'. cbn [map] in Hc'.
    pose proof (increasing_last _ _ _ Hs Hc') as Hle.
    apply in_map_iff in Ht. destruct Ht as (k & <- & Hk).
    apply in_seq in Hk. unfold minutes. lia.
Qed.

(** X18.  The forecast timestamps are strictly increasing, lie on
    15-minute boundaries, start one bin after the last candle and are later
    than the start of every candle of the table. *)
Theorem future_timestamps_after (prices : list PriceSample) (ts : list Z) :
  future_timestamps (Series.iloc_tail 96 (ohlc prices)) = inr ts ->
  StronglySorted Z.lt ts
  /\ Forall (fun t => (t mod minutes 15 = 0)%Z) ts
  /\ (exists c, Series.iloc_last (ohlc prices) = inr c
                /\ hd_error ts = Some (start c + minutes 15)%Z)
  /\ forall c t, In c (ohlc prices) -> In t ts -> (start c < t)%Z.
Proof.
  intros Hts. destruct (future_timestamps_sorted _ _ Hts) as (Hsorted & Hafter).
  split; [exact Hsorted|]. split; [|split; [|exact Hafter]].
  - destruct (future_timestamps_inv _ _ Hts) as (rows & c & E & ->).
    assert (Hc : In c (ohlc prices))
      by (rewrite E; apply in_or_app; right; now left).
    destruct (ohlc_start_aligned prices c Hc) as (q & Eq).
    apply Forall_forall. intros t Ht.
    apply in_map_iff in Ht. destruct Ht as (k & <- & _).
    rewrite Eq. change (minutes 15) with Resample.freq.
    replace (Resample.freq * q + minutes (15 * Z.of_nat k))%Z
      with ((q + Z.of_nat k) * Resample.freq)%Z
      by (unfold Resample.freq, minutes; lia).
    apply Z.mod_mul. pose proof freq_pos. lia.
  - destruct (future_timestamps_inv _ _ Hts) as (rows & c & E & ->).
    exists c. rewrite E. split; [apply iloc_last_app | reflexivity].
Qed.

Lemma future_timestamps_after_witness :
  future_timestamps (Series.iloc_tail 96 (ohlc three_samples))
  = inr (map (fun i => (1699992000000 + minutes (15 * Z.of_nat i))%Z)
             (seq 1 8))
  /\ forall c t,
       In c (ohlc three_samples) ->
       In t (map (fun i => (1699992000000 + minutes (15 * Z.of_nat i))%Z)
                 (seq 1 8)) ->
       (start c < t)%Z.
Proof.
  assert (H : future_timestamps (Series.iloc_tail 96 (ohlc three_samples))
              = inr (map (fun i =>
                            (1699992000000 + minutes (15 * Z.of_nat i))%Z)
                         (seq 1 8)))
    by (vm_compute; reflexivity).
  split; [exact H|].
  apply (future_timestamps_after three_samples _ H).
Defined.

Lemma map2_index (cs : list Candle) (rs : list f64) :
  length cs = length rs ->
  map c_index (Series.map2 of_candle cs rs) = map start cs.
Proof.
  revert rs. induction cs as [|c cs IH]; intros [|r rs] E; try discriminate;
    [reflexivity|].
  cbn. f_equal. apply IH. now injection E.
Qed.

(** X19.  [combined_df] lists the last 16 candles (all of them when there
    are fewer) and then the 8 forecast rows; its index is strictly
    increasing, and a row holds either candle cells or a predicted close,
    the cells of the other frame being NaN. *)
Theorem combined_df_rows (prices : list PriceSample) (forecast : list Q)
  (ts : list Z) (fd : list (Z * Q)) :
  future_timestamps (Series.iloc_tail 96 (ohlc prices)) = inr ts ->
  future_df ts forecast = inr fd ->
  length (combined_df (ohlc prices) (rsi (close_column (ohlc prices))) fd)
  = (Nat.min 16 (length (ohlc prices)) + 8)%nat
  /\ StronglySorted Z.lt
       (map c_index
          (combined_df (ohlc prices) (rsi (close_column (ohlc prices))) fd))
  /\ Forall (fun r => c_predicted_close r = NaN
                      \/ (c_open r = NaN /\ c_high r = NaN /\ c_low r = NaN
                          /\ c_close r = NaN /\ c_rsi r = NaN))
       (combined_df (ohlc prices) (rsi (close_column (ohlc prices))) fd).
Proof.
  intros Hts Hfd.
  destruct (future_df_length _ _ _ Hfd) as (Hlen & Hfst & _).
  destruct (future_timestamps_sorted _ _ Hts) as (Hsorted & Hafter).
  destruct (future_timestamps_inv _ _ Hts) as (rows & c & E & Ets).
  assert (Hts8 : length ts = 8%nat)
    by (rewrite Ets, length_map, length_seq; reflexivity).
  assert (Htails : length (Series.iloc_tail 16 (ohlc prices))
                   = length (Series.iloc_tail 16
                               (rsi (close_column (ohlc prices))))).
  { unfold Series.iloc_tail. rewrite !length_skipn, rsi_length.
    unfold close_column. now rewrite length_map. }
  unfold combined_df. split; [|split].
  - rewrite length_app, length_map, map2_length, <- Htails, Nat.min_id.
    unfold Series.iloc_tail. rewrite length_skipn. lia.
  - rewrite map_app, (map2_index _ _ Htails), map_map.
    cbn [of_forecast c_index].
    change (map (fun x => fst x) fd) with (map fst fd). rewrite Hfst.
    apply StronglySorted_app.
    + unfold Series.iloc_tail. rewrite <- skipn_map.
      apply StronglySorted_skipn, ohlc_starts_sorted.
    + exact Hsorted.
    + intros a t Ha Ht. apply in_map_iff in Ha. destruct Ha as (c' & <- & Hc').
      apply (Hafter c' t); [|exact Ht].
      unfold Series.iloc_tail in Hc'.
      rewrite <- (firstn_skipn (length (ohlc prices) - 16) (ohlc prices)).
      apply in_or_app. now right.
  - apply Forall_app. split.
    + apply Forall_forall. intros r Hr. left.
      clear - Hr. revert Hr.
      generalize (Series.iloc_tail 16 (rsi (close_column (ohlc prices)))).
      induction (Series.iloc_tail 16 (ohlc prices)) as [|c cs IH];
        intros [|x xs]; cbn; try contradiction.
      intros [<- | Hr]; [reflexivity | eauto].
    + apply Forall_forall. intros r Hr. right.
      apply in_map_iff in Hr. destruct Hr as (row & <- & _).
      repeat split.
Qed.

Lemma combined_df_rows_witness :
  future_timestamps (Series.iloc_tail 96 (ohlc three_samples))
  = inr (map (fun i => (1699992000000 + minutes (15 * Z.of_nat i))%Z)
             (seq 1 8))
  /\ future_df
       (map (fun i => (1699992000000 + minutes (15 * Z.of_nat i))%Z)
            (seq 1 8))
       [6; 6; 6; 6; 6; 6; 6; 6]
     = inr (combine
              (map (fun i => (1699992000000 + minutes (15 * Z.of_nat i))%Z)
                   (seq 1 8))
              [6; 6; 6; 6; 6; 6; 6; 6])
  /\ length (combined_df (ohlc three_samples)
               (rsi (close_column (ohlc three_samples)))
               (combine
                  (map (fun i =>
                          (1699992000000 + minutes (15 * Z.of_nat i))%Z)
                       (seq 1 8))
                  [6; 6; 6; 6; 6; 6; 6; 6]))
     = (Nat.min 16 (length (ohlc three_samples)) + 8)%nat.
Proof.
  assert (H1 : future_timestamps (Series.iloc_tail 96 (ohlc three_samples))
               = inr (map (fun i =>
                             (1699992000000 + minutes (15 * Z.of_nat i))%Z)
                          (seq 1 8)))
    by (vm_compute; reflexivity).
  assert (H2 : future_df
                 (map (fun i => (1699992000000 + minutes (15 * Z.of_nat i))%Z)
                      (seq 1 8))
                 [6; 6; 6; 6; 6; 6; 6; 6]
               = inr (combine
                        (map (fun i =>
                                (1699992000000 + minutes (15 * Z.of_nat i))%Z)
                             (seq 1 8))
                        [6; 6; 6; 6; 6; 6; 6; 6]))
    by reflexivity.
  split; [exact H1|]. split; [exact H2|].
  apply (combined_df_rows three_samples _ _ _ H1 H2).
Defined.

(** ** Runs *)

Lemma latest_rsi_of_table (prices : list PriceSample) :
  prices <> [] ->
  exists v, Series.iloc_last (rsi (close_column (ohlc prices))) = inr v.
Proof.
  intros Hne. destruct (ohlc_nonempty prices Hne) as (rows & c & E).
  pose proof (rsi_length (close_column (ohlc prices))) as Hlen.
  unfold close_column in Hlen at 2. rewrite length_map in Hlen.
  assert (Hrows : length (ohlc prices) = (length rows + 1)%nat)
    by (rewrite E, length_app; reflexivity).
  destruct (rsi (close_column (ohlc prices))) as [|x s];
    [cbn [length] in Hlen; lia|].
  apply iloc_last_cons.
Qed.

Lemma future_df_eq (ts : list Z) (forecast : list Q) :
  length ts = length forecast ->
  future_df ts forecast = inr (combine ts forecast).
Proof. intros E. unfold future_df. now rewrite E, Nat.eqb_refl. Qed.

Lemma future_df_mismatch (ts : list Z) (forecast : list Q) :
  length ts <> length forecast ->
  future_df ts forecast
  = inl (ValueError "array length does not match index length").
Proof.
  intros E. unfold future_df.
  destruct (Nat.eqb_spec (length ts) (length forecast)); [contradiction|].
  reflexivity.
Qed.

Section RunOutcomes.

Variable provider : string -> string -> Z -> Z -> M (list PriceSample).
Variable estimator : list f64 -> nat -> M (list Q).
Variable clock : Z -> Z.

(** X20.  With a name of the menu, a provider answer of at least one
    sample and an estimator answer of 8 values, the run reaches the end:
    it shows the last 16 candles with as many RSI cells, labels the RSI
    panel with the last of them, and draws the 8 forecast values in the
    order the estimator gave them. *)
Theorem run_completes (now : Z) (selected_crypto id : string)
  (prices : list PriceSample) (forecast : list Q) :
  crypto_id selected_crypto = inr id ->
  provider id "usd"%string
    (start_timestamp clock now) (end_timestamp clock now)
  = inr prices ->
  prices <> [] ->
  estimator (close_column (Series.iloc_tail 96 (ohlc prices))) forecast_steps
  = inr forecast ->
  length forecast = forecast_steps ->
  exists d,
    run provider estimator clock now selected_crypto = inr d
    /\ coin d = selected_crypto
    /\ candlesticks d = Series.iloc_tail 16 (ohlc prices)
    /\ length (rsi_line d) = length (candlesticks d)
    /\ Series.iloc_last (rsi_line d) = inr (rsi_label d)
    /\ map snd (forecast_line d) = forecast
    /\ peak_price d = max_future_price (forecast_line d)
    /\ In (peak_time d) (map fst (forecast_line d)).
Proof.
  intros Hid Hp Hne Hest Hlen.
  destruct (latest_rsi_of_table prices Hne) as (latest & Hlatest).
  destruct (ohlc_nonempty prices Hne) as (rows & c & E).
  pose proof (future_timestamps_eq rows c) as Hts. rewrite <- E in Hts.
  set (ts := map (fun i => (start c + minutes (15 * Z.of_nat i))%Z)
                 (seq 1 forecast_steps)) in *.
  assert (Hlts : length ts = length forecast)
    by (unfold ts; rewrite length_map, length_seq; now rewrite Hlen).
  pose proof (future_df_eq ts forecast Hlts) as Hfd.
  destruct (combine ts forecast) as [|[t0 p0] fd] eqn:Efd.
  { apply (f_equal (@length (Z * Q))) in Efd.
    rewrite length_combine, <- Hlts in Efd. unfold ts in Efd.
    rewrite length_map, length_seq in Efd. discriminate. }
  destruct (recommendation_total (map Num forecast)
              (recent_moving_avg (ohlc prices))) as (r & Hr).
  eexists. unfold run.
  rewrite Hid. cbn [bind Monad_either]. rewrite Hp, Hlatest, Hest, Hts, Hfd.
  cbn [max_future_time bind Monad_either ret]. rewrite Hr.
  split; [reflexivity|]. cbn [coin candlesticks rsi_line rsi_label
                              forecast_line peak_price peak_time].
  split; [reflexivity|]. split; [reflexivity|]. split; [|split; [|split]].
  - unfold Series.iloc_tail. rewrite !length_skipn, rsi_length.
    unfold close_column. now rewrite length_map.
  - now rewrite iloc_last_tail by lia.
  - rewrite <- Efd. unfold ts. clear - Hlts. revert Hlts. fold ts.
    generalize ts. clear. intros ts. revert forecast.
    induction ts as [|t ts IH]; intros [|q forecast] E; try discriminate;
      [reflexivity|].
    cbn. f_equal. apply IH. now injection E.
  - split; [reflexivity|].
    clear. revert t0 p0. induction fd as [|[t p] fd IH]; intros t0 p0; cbn.
    + now left.
    + destruct (F.Qltb p0 p).
      * right. apply IH.
      * destruct (IH t0 p0) as [H | H]; [now left | right; now right].
Qed.

(** X21.  Nothing is caught: an exception of the provider ends the run as
    it is, and so does an exception of the estimator once the provider has
    answered with at least one sample. *)
Theorem run_propagates (now : Z) (selected_crypto id : string) (e : exn) :
  crypto_id selected_crypto = inr id ->
  (provider id "usd"%string
     (start_timestamp clock now) (end_timestamp clock now)
   = inl e ->
   run provider estimator clock now selected_crypto = inl e)
  /\ (forall prices,
        provider id "usd"%string
          (start_timestamp clock now) (end_timestamp clock now)
        = inr prices ->
        prices <> [] ->
        estimator (close_column (Series.iloc_tail 96 (ohlc prices)))
          forecast_steps = inl e ->
        run provider estimator clock now selected_crypto = inl e).
Proof.
  intros Hid. split.
  - intros Hp. unfold run. rewrite Hid. cbn [bind Monad_either].
    now rewrite Hp.
  - intros prices Hp Hne Hest.
    destruct (latest_rsi_of_table prices Hne) as (latest & Hlatest).
    unfold run. rewrite Hid. cbn [bind Monad_either].
    now rewrite Hp, Hlatest, Hest.
Qed.

(** X22.  A forecast of another length than 8 is never drawn: the frame
    constructor refuses it and the run ends on its [ValueError], before the
    chart. *)
Theorem run_wrong_size_forecast (now : Z) (selected_crypto id : string)
  (prices : list PriceSample) (forecast : list Q) :
  crypto_id selected_crypto = inr id ->
  provider id "usd"%string
    (start_timestamp clock now) (end_timestamp clock now)
  = inr prices ->
  prices <> [] ->
  estimator (close_column (Series.iloc_tail 96 (ohlc prices))) forecast_steps
  = inr forecast ->
  length forecast <> forecast_steps ->
  exists msg,
    run provider estimator clock now selected_crypto = inl (ValueError msg).
Proof.
  intros Hid Hp Hne Hest Hlen. eexists.
  destruct (latest_rsi_of_table prices Hne) as (latest & Hlatest).
  destruct (ohlc_nonempty prices Hne) as (rows & c & E).
  pose proof (future_timestamps_eq rows c) as Hts. rewrite <- E in Hts.
  unfold run. rewrite Hid. cbn [bind Monad_either].
  rewrite Hp, Hlatest, Hest, Hts, future_df_mismatch; [reflexivity|].
  rewrite length_map, length_seq. congruence.
Qed.

End RunOutcomes.

Lemma run_completes_witness :
  crypto_id "Ethereum" = inr "ethereum"%string
  /\ three_samples <> []
  /\ exists d,
       run (fixed_provider three_samples) persistence_forecast
         utc_clock 1700000000000 "Ethereum" = inr d
       /\ coin d = "Ethereum"%string
       /\ candlesticks d = Series.iloc_tail 16 (ohlc three_samples)
       /\ length (rsi_line d) = length (candlesticks d)
       /\ Series.iloc_last (rsi_line d) = inr (rsi_label d)
       /\ map snd (forecast_line d) = [6; 6; 6; 6; 6; 6; 6; 6]
       /\ peak_price d = max_future_price (forecast_line d)
       /\ In (peak_time d) (map fst (forecast_line d)).
Proof.
  split; [reflexivity|]. split; [discriminate|].
  apply (run_completes (fixed_provider three_samples) persistence_forecast
           utc_clock 1700000000000 "Ethereum" "ethereum" three_samples
           [6; 6; 6; 6; 6; 6; 6; 6]);
    try reflexivity; discriminate.
Defined.

Lemma run_propagates_witness :
  crypto_id "XRP" = inr "ripple"%string
  /\ run (failing_provider (ProviderError "429")) persistence_forecast
       utc_clock 1700000000000 "XRP" = inl (ProviderError "429")
  /\ run (fixed_provider three_samples)
       (failing_forecast (EstimatorError "LinAlgError"))
       utc_clock 1700000000000 "XRP" = inl (EstimatorError "LinAlgError").
Proof.
  split; [reflexivity|]. split.
  - apply (run_propagates (failing_provider (ProviderError "429"))
             persistence_forecast utc_clock 1700000000000 "XRP" "ripple"
             (ProviderError "429")); reflexivity.
  - apply (run_propagates (fixed_provider three_samples)
             (failing_forecast (EstimatorError "LinAlgError"))
             utc_clock 1700000000000 "XRP" "ripple"
             (EstimatorError "LinAlgError")
             eq_refl) with (prices := three_samples);
      [reflexivity | discriminate | reflexivity].
Defined.

Lemma run_wrong_size_forecast_witness :
  crypto_id "Kaspa" = inr "kaspa"%string
  /\ three_samples <> []
  /\ length [1; 2; 3] <> forecast_steps
  /\ exists msg,
       run (fixed_provider three_samples) short_forecast utc_clock 1700000000000
         "Kaspa" = inl (ValueError msg).
Proof.
  split; [reflexivity|]. split; [discriminate|]. split; [discriminate|].
  apply (run_wrong_size_forecast (fixed_provider three_samples)
           short_forecast utc_clock 1700000000000 "Kaspa" "kaspa" three_samples
           [1; 2; 3]);
    try reflexivity; discriminate.
Defined.

(** ** What a run looks at *)

(** X24.  A run asks the provider one question, the prices in USD of the
    identifier of the selected coin between the two bounds of lines 46-47,
    and the estimator one question, 8 steps after the closes of the last 96
    candles: two providers and two estimators that agree on these give the
    same run, whatever the zone of the host. *)
Theorem run_queries
  (provider provider' : string -> string -> Z -> Z -> M (list PriceSample))
  (estimator estimator' : list f64 -> nat -> M (list Q))
  (clock : Z -> Z) (now : Z) (selected_crypto id : string) :
  crypto_id selected_crypto = inr id ->
  provider id "usd"%string
    (start_timestamp clock now) (end_timestamp clock now)
  = provider' id "usd"%string
      (start_timestamp clock now) (end_timestamp clock now) ->
  (forall prices,
     provider id "usd"%string
       (start_timestamp clock now) (end_timestamp clock now) = inr prices ->
     estimator (close_column (Series.iloc_tail 96 (ohlc prices))) 8%nat
     = estimator' (close_column (Series.iloc_tail 96 (ohlc prices))) 8%nat) ->
  run provider estimator clock now selected_crypto
  = run provider' estimator' clock now selected_crypto.
Proof.
  intros Hid Hp Hest. unfold run. rewrite Hid. cbn [bind Monad_either].
  rewrite <- Hp.
  destruct (provider id "usd"%string (start_timestamp clock now)
              (end_timestamp clock now)) as [e | prices] eqn:E;
    [reflexivity|].
  destruct (Series.iloc_last (rsi (close_column (ohlc prices))))
    as [e | latest]; [reflexivity|].
  change forecast_steps with 8%nat. now rewrite (Hest prices eq_refl).
Qed.

Lemma run_queries_witness :
  crypto_id "Bitcoin" = inr "bitcoin"%string
  /\ run (fixed_provider three_samples) persistence_forecast
       (dst_clock 1700000000000) 1700003600000 "Bitcoin"
     = run (bitcoin_only_provider three_samples) persistence_forecast
         (dst_clock 1700000000000) 1700003600000 "Bitcoin".
Proof.
  split; [reflexivity|].
  apply (run_queries (fixed_provider three_samples)
           (bitcoin_only_provider three_samples)
           persistence_forecast persistence_forecast
           (dst_clock 1700000000000) 1700003600000 "Bitcoin" "bitcoin");
    reflexivity.
Defined.

(** X25.  The two bounds of the query are 30 hours (108000 seconds) apart
    when the zone of the host has the same offset at both ends of the
    window and the window starts after the epoch. *)
Theorem query_window (clock : Z -> Z) (now offset : Z) :
  clock (end_date now) = (end_date now + offset)%Z ->
  clock (start_date now) = (start_date now + offset)%Z ->
  (0 <= start_date now + offset)%Z ->
  (end_timestamp clock now - start_timestamp clock now = 30 * 3600)%Z.
Proof.
  unfold end_timestamp, start_timestamp. intros -> ->.
  unfold start_date, end_date, hours. intros H.
  rewrite !Z.quot_div_nonneg by lia.
  replace (now + offset)%Z
    with (now - 30 * 3600 * 1000 + offset + (30 * 3600) * 1000)%Z by lia.
  rewrite Z.div_add by lia. lia.
Qed.

Lemma query_window_witness :
  utc_clock (end_date 1700000000000) = (end_date 1700000000000 + 0)%Z
  /\ utc_clock (start_date 1700000000000)
     = (start_date 1700000000000 + 0)%Z
  /\ (0 <= start_date 1700000000000 + 0)%Z
  /\ (end_timestamp utc_clock 1700000000000
      - start_timestamp utc_clock 1700000000000 = 30 * 3600)%Z.
Proof.
  split; [reflexivity|]. split; [reflexivity|].
  split; [vm_compute; discriminate|].
  apply (query_window utc_clock 1700000000000 0);
    [reflexivity | reflexivity | vm_compute; discriminate].
Defined.

(** Across a change of offset the window is not 30 hours: on a host whose
    wall clock moved forward by one hour an hour ago, the bounds are 29
    hours (104400 seconds) apart. *)
Example query_window_across_dst :
  (end_timestamp (dst_clock 1700000000000) 1700003600000
   - start_timestamp (dst_clock 1700000000000) 1700003600000
   = 104400)%Z.
Proof. reflexivity. Qed.
